(** * plasmadeck: slot assignment and remote-script coordination

    A shallow embedding of [plasmadeck.py]: the listener object
    ([PlasmaDeckWindowListener]) with its window registry and slot list, the
    KWin script runner ([KWinScriptRunner], [LoadedKWinScript]), the script
    templates, and the tail of [main] that runs and stops the observer script.

    Python strings are sequences of Unicode code points, bytes are numbers
    below 256.  Methods are computations in a state-and-exception monad:
    a Python exception leaves every mutation made before it in place, so a
    computation returns its result together with the state it reached.
    Everything outside the program (icon lookup, image preparation, the
    device, the file system, the D-Bus peer, task cancellation) is an oracle
    in [Env]; every call that leaves the program is recorded in [trace].
    Writes to standard output ([print]) are not recorded. *)

From Stdlib Require Import NArith String Ascii.
From stdpp Require Import gmap list.

(** ** Data *)

(** A Python [str]: its code points, each below [0x110000]. *)
Abbreviation pystr := (list N).

(** A Python [bytes]: its bytes, each below 256. *)
Abbreviation pybytes := (list N).

(** A literal of the source, the backquote standing for the double quote. *)
Definition lit (s : string) : pystr :=
  (fun a => if Ascii.eqb a "`"%char then 34%N else N_of_ascii a)
    <$> list_ascii_of_string s.

(** [WindowData] (a dataclass). *)
Record WindowData := mkWindowData {
  uuid : pystr;
  caption : pystr;
  resourceClass : pystr
}.

(** [LoadedKWinScript]: the fields [_script_id] and [_filename].  A temp file
    is named by its index in the file store. *)
Record LoadedKWinScript := mkLoadedKWinScript {
  _script_id : nat;
  _filename : nat
}.

Inductive exn :=
  | KeyError | TypeError | IndexError | AssertionError | UnicodeEncodeError
  | OSError | DBusError | CancelledError | ExternalError.

#[global] Instance exn_eq_dec : EqDecision exn.
Proof. solve_decision. Defined.

Inductive res (A : Type) :=
  | Ok (a : A)
  | Raise (e : exn).
Arguments Ok {A} a.
Arguments Raise {A} e.

(** Calls that leave the program, in the order they are issued. *)
Inductive call :=
  | SetKeyImage (key : nat) (image : option N)  (* deck.set_key_image *)
  | Mkstemp (filename : nat)                    (* tempfile.mkstemp *)
  | OsWrite (fd : nat) (written : nat)          (* os.write and its answer *)
  | OsClose (fd : nat)
  | OsRemove (filename : nat)
  | LoadScript (filename : nat)                 (* scripting.call_load_script *)
  | Introspect (script_id : nat)                (* bus.introspect *)
  | Run (script_id : nat)                       (* call_run *)
  | Stop (script_id : nat)                      (* call_stop *)
  | UnloadScript (filename : nat)               (* scripting.call_unload_script *)
  | WaitForDisconnect.                          (* bus.wait_for_disconnect *)

#[global] Instance call_eq_dec : EqDecision call.
Proof. solve_decision. Defined.

(** The listener's fields [windows] and [slots], the temp files ([None]: a
    removed file) and the calls issued so far. *)
Record State := mkState {
  windows : gmap pystr WindowData;
  slots : list (option pystr);
  files : list (option pybytes);
  trace : list call
}.

(** What the world outside the program answers. *)
Record Env := mkEnv {
  (* os.path.exists(path) *)
  env_path_exists : pystr -> bool;
  (* DesktopFile.from_file(path): the Icon key of its Desktop Entry, if any *)
  env_desktop_icon : pystr -> res (option pystr);
  (* theme.lookup_icon(icon, [], resolution, 1, 0, 0): a paintable or None *)
  env_lookup_icon : option pystr -> N -> res (option N);
  (* lines 246-254 of WindowAdded: the native key image of an icon *)
  env_native_image : N -> res N;
  (* deck.set_key_image succeeds *)
  env_device_ok : nat -> option N -> bool;
  env_mkstemp_ok : bool;
  (* os.write: the number of bytes the system takes, None for an OSError *)
  env_write : pybytes -> option nat;
  (* a D-Bus request is answered without an error *)
  env_remote_ok : call -> bool;
  (* the task is cancelled while it awaits the answer to this request *)
  env_cancelled : call -> bool;
  (* the script id loadScript answers for a file *)
  env_script_id : nat -> nat
}.

(** ** The monad *)

Definition M (A : Type) : Type := Env -> State -> res A * State.

#[global] Instance M_ret : MRet M := fun A a _ st => (Ok a, st).
#[global] Instance M_bind : MBind M := fun A B f c env st =>
  match c env st with
  | (Ok a, st') => f a env st'
  | (Raise e, st') => (Raise e, st')
  end.

Definition raise {A} (e : exn) : M A := fun _ st => (Raise e, st).

(** Functions that may raise and touch no state sequence in [res]. *)
#[global] Instance res_ret : MRet res := fun A a => Ok a.
#[global] Instance res_bind : MBind res := fun A B f r =>
  match r with
  | Ok a => f a
  | Raise e => Raise e
  end.

(** Such a function as a computation. *)
Definition external {A} (f : Env -> res A) : M A := fun env st => (f env, st).

(** [try: c  except e: h] *)
Definition try_except {A} (c : M A) (e : exn) (h : M A) : M A := fun env st =>
  match c env st with
  | (Raise e', st') => if decide (e' = e) then h env st' else (Raise e', st')
  | r => r
  end.

Definition set_windows (w : gmap pystr WindowData) (st : State) : State :=
  mkState w (slots st) (files st) (trace st).
Definition set_slots (l : list (option pystr)) (st : State) : State :=
  mkState (windows st) l (files st) (trace st).
Definition set_files (f : list (option pybytes)) (st : State) : State :=
  mkState (windows st) (slots st) f (trace st).
Definition record (c : call) (st : State) : State :=
  mkState (windows st) (slots st) (files st) (trace st ++ [c]).

(** ** The device *)

(** [self.deck.set_key_image(key, image)] *)
Definition set_key_image (key : nat) (image : option N) : M unit := fun env st =>
  let st' := record (SetKeyImage key image) st in
  if env_device_ok env key image then (Ok tt, st') else (Raise ExternalError, st').

(** ** The listener: registry and slots *)

(** [PlasmaDeckWindowListener.__init__]: the registry is empty and the slot
    list is the literal of eight [None]s, whatever the deck is.  ([_cb] is
    made the key callback of the deck: see [handle].) *)
Definition init (deck_key_count : nat) : State :=
  mkState ∅ [None; None; None; None; None; None; None; None] [] [].

(** [self.slots[key] = v] *)
Definition set_slot (key : nat) (v : option pystr) : M unit := fun _ st =>
  if decide (key < length (slots st))
  then (Ok tt, set_slots (<[key := v]> (slots st)) st)
  else (Raise IndexError, st).

(** The scan of lines 256-260: the index of the first [None], counting
    from [key]. *)
Fixpoint first_empty (l : list (option pystr)) (key : nat) : option nat :=
  match l with
  | [] => None
  | None :: _ => Some key
  | Some _ :: l' => first_empty l' (S key)
  end.

(** Lines 255-260 of [WindowAdded]: the loop ends ([break]) at the first
    empty slot, which it gives to [id]; the result is [my_key]. *)
Definition assign (id : pystr) : M (option nat) := fun env st =>
  match first_empty (slots st) 0 with
  | Some my_key =>
      match set_slot my_key (Some id) env st with
      | (Ok _, st') => (Ok (Some my_key), st')
      | (Raise e, st') => (Raise e, st')
      end
  | None => (Ok None, st)
  end.

(** Lines 268-271 of [WindowRemoved]: the loop over [enumerate(self.slots)],
    [todo] being the slots not yet visited.  A step changes only the slot it
    visits, so the slots still to visit are those of the list at entry. *)
Fixpoint release_from (id : pystr) (key : nat) (todo : list (option pystr))
  : M unit :=
  match todo with
  | [] => mret tt
  | win :: todo' =>
      (if decide (win = Some id)
       then set_slot key None ;; set_key_image key None
       else mret tt) ;;
      release_from id (S key) todo'
  end.

Definition release (id : pystr) : M unit := fun env st =>
  release_from id 0 (slots st) env st.

(** [os.path.join(a, b)] *)
Definition path_join (a b : pystr) : pystr :=
  match b with
  | 47%N :: _ => b
  | _ =>
      match last a with
      | None | Some 47%N => a ++ b
      | Some _ => a ++ [47%N] ++ b
      end
  end.

Definition desktop_locations : list pystr := [lit "/usr/share/applications/"].

(** The loop of [desktop_file_from_wm_class] over [dirs]. *)
Fixpoint desktop_file_in (env : Env) (wm_class : pystr) (dirs : list pystr)
  : res (option pystr) :=
  match dirs with
  | [] => Ok None
  | desktop_file_dir :: dirs' =>
      let path := path_join desktop_file_dir (wm_class ++ lit ".desktop") in
      if env_path_exists env path then env_desktop_icon env path
      else desktop_file_in env wm_class dirs'
  end.

(** [desktop_file_from_wm_class(wm_class)] *)
Definition desktop_file_from_wm_class (env : Env) (wm_class : pystr)
  : res (option pystr) :=
  desktop_file_in env wm_class desktop_locations.

(** The loop of [get_icon_path_by_wm_class] over the resolutions: [icon] is
    the name at first and the last answer, [None], afterwards. *)
Fixpoint lookup_icons (env : Env) (icon : option pystr) (resolutions : list N)
  : res (option N) :=
  match resolutions with
  | [] => Ok None
  | resolution :: rest =>
      found ← env_lookup_icon env icon resolution;
      match found with
      | Some paintable => Ok (Some paintable)
      | None => lookup_icons env None rest
      end
  end.

(** [get_icon_path_by_wm_class(wm_class)], the icon theme of the display
    being at hand. *)
Definition get_icon_path_by_wm_class (env : Env) (wm_class : pystr)
  : res (option N) :=
  icon ← desktop_file_from_wm_class env wm_class;
  match icon with
  | None => Ok None
  | Some name =>
      lookup_icons env (Some name)
        [16; 20; 22; 24; 28; 32; 36; 48; 64; 72; 96; 128; 192; 256; 480; 512;
         1024]%N
  end.

(** Lines 246-254 of [WindowAdded]: the file of the icon is read (through
    [cairosvg] when its name ends in .svg), scaled to the key and converted
    to the format of the deck; any of these may raise. *)
Definition native_image (icon : N) : M N :=
  fun env st => (env_native_image env icon, st).

(** [self.windows[uuid] = WindowData(uuid, caption, resourceClass)] *)
Definition register (id cap rc : pystr) : M unit := fun _ st =>
  (Ok tt, set_windows (<[id := mkWindowData id cap rc]> (windows st)) st).

(** [del self.windows[uuid]] *)
Definition unregister (id : pystr) : M unit := fun _ st =>
  match windows st !! id with
  | Some _ => (Ok tt, set_windows (delete id (windows st)) st)
  | None => (Raise KeyError, st)
  end.

(** [PlasmaDeckWindowListener.Log]: a line on standard output. *)
Definition Log (msg : pystr) : M unit := mret tt.

(** [PlasmaDeckWindowListener.WindowAdded] *)
Definition WindowAdded (id cap rc : pystr) : M unit :=
  icon ← external (fun env => get_icon_path_by_wm_class env rc);
  match icon with
  | Some icon =>
      native_img ← native_image icon;
      my_key ← assign id;
      match my_key with
      | Some my_key => set_key_image my_key (Some native_img)
      | None => mret tt
      end
  | None => mret tt
  end ;;
  register id cap rc.

(** [PlasmaDeckWindowListener.WindowRemoved] *)
Definition WindowRemoved (id : pystr) : M unit :=
  unregister id ;;
  release id.

(** ** Script texts *)

Definition nl : pystr := [10%N].

(** [sep.join(args)] *)
Fixpoint join (sep : pystr) (args : list pystr) : pystr :=
  match args with
  | [] => []
  | [a] => a
  | a :: rest => a ++ sep ++ join sep rest
  end.

Definition DBUS_ADDR : pystr := lit "net.shehadeh.PlasmaDeckWindowListener".
Definition DBUS_OBJ : pystr := lit "/net/shehadeh/PlasmaDeckWindowListener".
Definition DBUS_IFACE : pystr := lit "net.shehadeh.PlasmaDeckWindowListener".

Definition js_call_dbus (args : list pystr) : pystr :=
  lit "callDBus(`" ++ DBUS_ADDR ++ lit "`, `" ++ DBUS_OBJ ++ lit "`, `"
    ++ DBUS_IFACE ++ lit "`, " ++ join (lit ",") args ++ lit ")".

Definition log : pystr :=
  join nl [
    [];
    lit "function log(msg) {";
    lit "    console.log('PlasmaDeckWindowListener', msg);";
    lit "    " ++ js_call_dbus [lit "'Log'"; lit "msg.toString()"];
    lit "}";
    []
  ].

(** The three literals of [handle_press] around the two [self.slots[key]]. *)
Definition press_head : pystr :=
  join nl [
    [];
    lit "                for(const win of workspace.windowList()) {";
    lit "                    log(win.internalId.toString() + ` == ` + '"
  ].

Definition press_mid : pystr :=
  join nl [
    lit "');";
    lit "                    if (win.internalId.toString() == '"
  ].

Definition press_tail : pystr :=
  join nl [
    lit "')";
    lit "                        workspace.activeWindow = win";
    lit "                }";
    lit "            "
  ].

(** The script [_cb] builds when the slot holds [target]. *)
Definition activation_script (target : pystr) : pystr :=
  log ++ press_head ++ target ++ press_mid ++ target ++ press_tail.

(** The observer script. *)
Definition SCRIPT : pystr :=
  log ++ join nl [
    [];
    lit "function add(window) {";
    lit "  try {";
    lit "    log(`ADD [enter] caption='` + window.caption + `', resourceClass=` + window.resourceClass);";
    lit "    " ++ js_call_dbus [lit "'WindowAdded'"; lit "window.internalId.toString()";
                                lit "window.caption"; lit "window.resourceClass"];
    lit "    log(`ADD [exit] caption='` + window.caption + `', resourceClass=` + window.resourceClass);";
    lit "  } catch(e) {";
    lit "    log(`ADD [error] caption='` + window.caption + `', resourceClass=` + window.resourceClass + `, error=` + e.toString());";
    lit "  }";
    lit "}";
    [];
    lit "function remove(window) {";
    lit "  try {";
    lit "    log(`REMOVE [enter] caption='` + window.caption + `', resourceClass=` + window.resourceClass);";
    lit "    " ++ js_call_dbus [lit "'WindowRemoved'"; lit "window.internalId.toString()";
                                lit "window.caption"; lit "window.resourceClass"];
    lit "    log(`REMOVE [exit] caption='` + window.caption + `', resourceClass=` + window.resourceClass);";
    lit "  } catch(e) {";
    lit "    log(`REMOVE [error] caption='` + window.caption + `', resourceClass=` + window.resourceClass + `, error=` + e.toString());";
    lit "  }";
    lit "}";
    [];
    lit "log(`INIT`)";
    [];
    lit "for (const window of workspace.windowList()) {";
    lit "  add(window)";
    lit "}";
    [];
    lit "workspace.windowAdded.connect(add)";
    lit "workspace.windowRemoved.connect(remove)";
    []
  ].

(** ** The script runner *)

(** [str.encode("utf-8")] of one code point; surrogates have no encoding. *)
Definition encode_code_point (c : N) : option pybytes :=
  if (c <? 0x80)%N then Some [c]
  else if (c <? 0x800)%N then
    Some [N.lor 0xC0 (N.shiftr c 6); N.lor 0x80 (N.land c 0x3F)]
  else if (c <? 0x10000)%N then
    if (0xD800 <=? c)%N && (c <? 0xE000)%N then None
    else Some [N.lor 0xE0 (N.shiftr c 12);
               N.lor 0x80 (N.land (N.shiftr c 6) 0x3F);
               N.lor 0x80 (N.land c 0x3F)]
  else if (c <? 0x110000)%N then
    Some [N.lor 0xF0 (N.shiftr c 18);
          N.lor 0x80 (N.land (N.shiftr c 12) 0x3F);
          N.lor 0x80 (N.land (N.shiftr c 6) 0x3F);
          N.lor 0x80 (N.land c 0x3F)]
  else None.

Fixpoint utf8 (s : pystr) : option pybytes :=
  match s with
  | [] => Some []
  | c :: s' =>
      match encode_code_point c, utf8 s' with
      | Some b, Some bs => Some (b ++ bs)
      | _, _ => None
      end
  end.

(** [script.encode("utf-8")] *)
Definition encode (s : pystr) : M pybytes :=
  match utf8 s with
  | Some b => mret b
  | None => raise UnicodeEncodeError
  end.

(** [tempfile.mkstemp(text=True)]: a new, empty file; its descriptor and its
    name are both its index in the store. *)
Definition mkstemp : M (nat * nat) := fun env st =>
  if env_mkstemp_ok env then
    let f := length (files st) in
    (Ok (f, f), record (Mkstemp f) (set_files (files st ++ [Some []]) st))
  else (Raise OSError, st).

(** [os.write(fd, data)]: the system takes a prefix of [data] and answers
    its length. *)
Definition os_write (fd : nat) (data : pybytes) : M nat := fun env st =>
  match env_write env data, files st !! fd with
  | Some n, Some (Some old) =>
      let written := n `min` length data in
      (Ok written,
       record (OsWrite fd written)
         (set_files (<[fd := Some (old ++ take written data)]> (files st)) st))
  | _, _ => (Raise OSError, st)
  end.

(** [os.close(fd)] *)
Definition os_close (fd : nat) : M unit := fun _ st =>
  (Ok tt, record (OsClose fd) st).

(** [os.remove(filename)] *)
Definition os_remove (filename : nat) : M unit := fun _ st =>
  match files st !! filename with
  | Some (Some _) =>
      (Ok tt, record (OsRemove filename)
                (set_files (<[filename := None]> (files st)) st))
  | _ => (Raise OSError, st)
  end.

(** [assert b] *)
Definition assert (b : bool) : M unit :=
  if b then mret tt else raise AssertionError.

(** [await] of a D-Bus request: the request is sent, then the task waits for
    the answer, where a cancellation or an error reply reaches it. *)
Definition request (c : call) : M unit := fun env st =>
  let st' := record c st in
  if env_cancelled env c then (Raise CancelledError, st')
  else if env_remote_ok env c then (Ok tt, st')
  else (Raise DBusError, st').

(** The value of an answer. *)
Definition answer {A} (f : Env -> A) : M A := fun env st => (Ok (f env), st).

(** [self.scripting.call_load_script(filename)] *)
Definition call_load_script (filename : nat) : M nat :=
  request (LoadScript filename) ;;
  answer (fun env => env_script_id env filename).

(** [KWinScriptRunner.load] *)
Definition load (script : pystr) : M LoadedKWinScript :=
  '(fd, filename) ← mkstemp;
  script_bytes ← encode script;
  written_len ← os_write fd script_bytes;
  assert (bool_decide (length script_bytes = written_len)) ;;
  script_id ← call_load_script filename;
  os_close fd ;;
  request (Introspect script_id) ;;
  mret (mkLoadedKWinScript script_id filename).

(** [KWinScriptRunner.unload]; nothing in the program calls it. *)
Definition unload (script : LoadedKWinScript) : M unit :=
  request (UnloadScript (_filename script)) ;;
  os_remove (_filename script).

(** [LoadedKWinScript.run] *)
Definition run (script : LoadedKWinScript) : M unit :=
  request (Run (_script_id script)).

(** [LoadedKWinScript.stop] *)
Definition stop (script : LoadedKWinScript) : M unit :=
  request (Stop (_script_id script)).

(** ** Key presses *)

(** [self.slots[key]] *)
Definition slot (key : nat) : M (option pystr) := fun _ st =>
  match slots st !! key with
  | Some win => (Ok win, st)
  | None => (Raise IndexError, st)
  end.

(** [s + win] for a string [s]: a [TypeError] when [win] is [None]. *)
Definition add_str (s : pystr) (win : option pystr) : M pystr :=
  match win with
  | Some t => mret (s ++ t)
  | None => raise TypeError
  end.

(** The callback [_cb] that [handle_press] returns. *)
Definition handle_press (key : nat) (state : bool) : M unit :=
  win1 ← slot key;
  s1 ← add_str (log ++ press_head) win1;
  win2 ← slot key;
  s2 ← add_str (s1 ++ press_mid) win2;
  let script := s2 ++ press_tail in
  if state then
    script_obj ← load script;
    run script_obj
  else mret tt.

(** ** Shutdown *)

(** Lines 333-340 of [main]: load the observer script, run it and wait; on
    cancellation stop it. *)
Definition main : M unit :=
  listener_script ← load SCRIPT;
  try_except
    (run listener_script ;; request WaitForDisconnect)
    CancelledError
    (stop listener_script).

(** ** Events *)

Inductive event :=
  | EvWindowAdded (id cap rc : pystr)
  | EvWindowRemoved (id : pystr)
  | EvLog (msg : pystr)
  | EvKey (key : nat) (state : bool).

Definition handle (ev : event) : M unit :=
  match ev with
  | EvWindowAdded id cap rc => WindowAdded id cap rc
  | EvWindowRemoved id => WindowRemoved id
  | EvLog msg => Log msg
  | EvKey key state => handle_press key state
  end.

(** One event, handled in the environment it arrives in; the caller gets the
    exception, the listener keeps the state. *)
Definition step (st : State) (ev : Env * event) : State :=
  (handle ev.2 ev.1 st).2.

Definition process (evs : list (Env * event)) (st : State) : State :=
  foldl step st evs.

(** ** Properties of slot lists *)

(** No identity is in two slots. *)
Definition unique_slots (l : list (option pystr)) : Prop :=
  forall i j id, l !! i = Some (Some id) -> l !! j = Some (Some id) -> i = j.

(** The slot list after lines 255-260. *)
Definition assigned (id : pystr) (l : list (option pystr)) : list (option pystr) :=
  match first_empty l 0 with
  | Some my_key => <[my_key := Some id]> l
  | None => l
  end.

(** The part [todo] of the slot list after lines 268-271, [dev key] telling
    whether the device takes the cleared image of [key]: the loop ends at
    the first slot whose image the device refuses. *)
Fixpoint released (id : pystr) (dev : nat -> bool) (key : nat)
    (todo : list (option pystr)) : list (option pystr) :=
  match todo with
  | [] => []
  | win :: todo' =>
      if decide (win = Some id)
      then None :: (if dev key then released id dev (S key) todo' else todo')
      else win :: released id dev (S key) todo'
  end.

(** Every window-added event of [evs] carries an identity that is in no slot
    when the event arrives. *)
Fixpoint fresh_adds (evs : list (Env * event)) (st : State) : bool :=
  match evs with
  | [] => true
  | ev :: evs' =>
      match ev.2 with
      | EvWindowAdded id _ _ => bool_decide (Some id ∉ slots st)
      | _ => true
      end && fresh_adds evs' (step st ev)
  end.

(** A window-added event claims the first free slot, if there is one. *)
Definition claims_free_slot (env : Env) (st : State) (id cap rc : pystr) : Prop :=
  forall k, first_empty (slots st) 0 = Some k ->
    slots (WindowAdded id cap rc env st).2 !! k = Some (Some id).

(** A window-removed event is answered without an exception and leaves the
    slots as they are. *)
Definition removal_tolerated (env : Env) (st : State) (id : pystr) : Prop :=
  (WindowRemoved id env st).1 = Ok tt /\
  slots (WindowRemoved id env st).2 = slots st.

(** [load] leaves the whole encoding of [script] in the file it created and
    does not fail its assertion. *)
Definition load_writes_all (env : Env) (st : State) (script : pystr) : Prop :=
  exists b, utf8 script = Some b /\
    files (load script env st).2 !! length (files st) = Some (Some b) /\
    (load script env st).1 <> Raise AssertionError.

(** ** String literals of the script language

    The single-quoted string literals of ECMAScript, the language of the
    scripts: the text after the opening quote is read up to the closing
    quote; the result is the string the literal denotes and the text after
    the closing quote.  A line terminator (the line and paragraph separators
    among them, as in the editions before 2019) ends the literal in error.
    Of the escape sequences the single-character ones and the line
    continuation are read; hexadecimal, Unicode and digit escapes are not:
    a literal with one of these is not read at all. *)

Definition is_line_terminator (c : N) : bool :=
  bool_decide (c = 10%N) || bool_decide (c = 13%N)
  || bool_decide (c = 0x2028%N) || bool_decide (c = 0x2029%N).

(** What [\c] denotes. *)
Definition js_escape (c : N) : option pystr :=
  if is_line_terminator c then Some []
  else if bool_decide (c = 98%N) then Some [8%N]        (* \b *)
  else if bool_decide (c = 102%N) then Some [12%N]      (* \f *)
  else if bool_decide (c = 110%N) then Some [10%N]      (* \n *)
  else if bool_decide (c = 114%N) then Some [13%N]      (* \r *)
  else if bool_decide (c = 116%N) then Some [9%N]       (* \t *)
  else if bool_decide (c = 118%N) then Some [11%N]      (* \v *)
  else if bool_decide (c = 120%N) || bool_decide (c = 117%N) then None  (* \x \u *)
  else if bool_decide (48 <= c)%N && bool_decide (c <= 57)%N then None  (* \0 .. \9 *)
  else Some [c].

Fixpoint js_single_quoted (src : pystr) : option (pystr * pystr) :=
  match src with
  | [] => None
  | c :: rest =>
      if bool_decide (c = 39%N) then Some ([], rest)
      else if bool_decide (c = 92%N) then
        match rest with
        | [] => None
        | e :: rest' =>
            let rest'' :=
              match rest' with
              | l :: r => if bool_decide (e = 13%N /\ l = 10%N) then r else rest'
              | [] => rest'
              end in
            match js_escape e, js_single_quoted rest'' with
            | Some v, Some (value, after) => Some (v ++ value, after)
            | _, _ => None
            end
        end
      else if is_line_terminator c then None
      else
        match js_single_quoted rest with
        | Some (value, after) => Some (c :: value, after)
        | None => None
        end
  end.

(** A code point that stands for itself inside a single-quoted literal. *)
Definition plain (c : N) : bool :=
  negb (bool_decide (c = 39%N) || bool_decide (c = 92%N) || is_line_terminator c).

(** The text of the activation script from the right operand of its
    comparison on, the opening quote taken off. *)
Definition comparison_operand (target : pystr) : pystr :=
  drop (length (log ++ press_head ++ target ++ press_mid))
    (activation_script target).

(** The text from the literal of the diagnostic line on. *)
Definition logged_operand (target : pystr) : pystr :=
  drop (length (log ++ press_head)) (activation_script target).

(** The operand of the comparison is a literal that denotes [target], and
    the script goes on after it as the template has it. *)
Definition compares_with (target : pystr) : bool :=
  match js_single_quoted (comparison_operand target) with
  | Some (value, after) =>
      bool_decide (value = target) && bool_decide (after = drop 1 press_tail)
  | None => false
  end.

(** ** Environments and identities of the examples *)

(** Every collaborator succeeds: each class has a desktop file with the icon
    app, whose paintable is 7 and whose key image is 7; the device takes
    every image; writes are complete; script ids count from 40. *)
Definition env_ok : Env := {|
  env_path_exists := fun _ => true;
  env_desktop_icon := fun _ => Ok (Some (lit "app"));
  env_lookup_icon := fun _ _ => Ok (Some 7%N);
  env_native_image := fun icon => Ok icon;
  env_device_ok := fun _ _ => true;
  env_mkstemp_ok := true;
  env_write := fun data => Some (length data);
  env_remote_ok := fun _ => true;
  env_cancelled := fun _ => false;
  env_script_id := fun filename => 40 + filename
|}.

(** As [env_ok], no class having a desktop file. *)
Definition env_no_icon : Env := {|
  env_path_exists := fun _ => false;
  env_desktop_icon := fun _ => Ok (Some (lit "app"));
  env_lookup_icon := fun _ _ => Ok (Some 7%N);
  env_native_image := fun icon => Ok icon;
  env_device_ok := fun _ _ => true;
  env_mkstemp_ok := true;
  env_write := fun data => Some (length data);
  env_remote_ok := fun _ => true;
  env_cancelled := fun _ => false;
  env_script_id := fun filename => 40 + filename
|}.

(** As [env_ok], the system taking three bytes of a write (a full disk, a
    file size limit). *)
Definition env_short_write : Env := {|
  env_path_exists := fun _ => true;
  env_desktop_icon := fun _ => Ok (Some (lit "app"));
  env_lookup_icon := fun _ _ => Ok (Some 7%N);
  env_native_image := fun icon => Ok icon;
  env_device_ok := fun _ _ => true;
  env_mkstemp_ok := true;
  env_write := fun _ => Some 3;
  env_remote_ok := fun _ => true;
  env_cancelled := fun _ => false;
  env_script_id := fun filename => 40 + filename
|}.

(** As [env_ok], the task being cancelled while it waits for the disconnect. *)
Definition env_terminated : Env := {|
  env_path_exists := fun _ => true;
  env_desktop_icon := fun _ => Ok (Some (lit "app"));
  env_lookup_icon := fun _ _ => Ok (Some 7%N);
  env_native_image := fun icon => Ok icon;
  env_device_ok := fun _ _ => true;
  env_mkstemp_ok := true;
  env_write := fun data => Some (length data);
  env_remote_ok := fun _ => true;
  env_cancelled := fun c => bool_decide (c = WaitForDisconnect);
  env_script_id := fun filename => 40 + filename
|}.

Definition W1 : pystr := lit "W1".
Definition W2 : pystr := lit "W2".

(** A computation that leaves the listener's registry and slots alone. *)
Definition keeps_listener {A} (c : M A) : Prop :=
  forall env st,
    slots (c env st).2 = slots st /\ windows (c env st).2 = windows st.

(** Two runs of events of the examples. *)
Definition evs_duplicate : list (Env * event) :=
  [(env_ok, EvWindowAdded W1 (lit "one") (lit "app"));
   (env_ok, EvWindowAdded W1 (lit "one") (lit "app"))].

Definition evs_reuse : list (Env * event) :=
  [(env_ok, EvWindowAdded W1 (lit "one") (lit "app"));
   (env_ok, EvWindowAdded W2 (lit "two") (lit "app"));
   (env_ok, EvWindowRemoved W1);
   (env_ok, EvKey 1 true);
   (env_ok, EvWindowAdded W1 (lit "one") (lit "app"))].

(** A state whose eight slots are taken. *)
Definition st_full : State :=
  process
    ((fun c => (env_ok, EvWindowAdded [87%N; c] (lit "w") (lit "app")))
       <$> [49%N; 50%N; 51%N; 52%N; 53%N; 54%N; 55%N; 56%N])
    (init 8).

(** A computation all of whose calls satisfy [P]. *)
Definition issues {A} (P : call -> Prop) (c : M A) : Prop :=
  forall env st, exists new,
    trace (c env st).2 = trace st ++ new /\ Forall P new.

(** A call that gives up a loaded script or its file. *)
Definition is_unload (c : call) : Prop :=
  match c with
  | UnloadScript _ | OsRemove _ => True
  | _ => False
  end.

(** The state [load] reaches when the system takes [n] bytes of the
    encoding [b] and the assertion fails. *)
Definition short_written (st : State) (b : pybytes) (n : nat) : State :=
  mkState (windows st) (slots st) (files st ++ [Some (take n b)])
    (trace st ++ [Mkstemp (length (files st)); OsWrite (length (files st)) n]).

(** ** Further properties of states and runs *)

(** The slot list with every slot of [id] emptied. *)
Definition cleared (id : pystr) (l : list (option pystr)) : list (option pystr) :=
  (fun win => if decide (win = Some id) then None else win) <$> l.

(** The keys, counted from [key], whose slot holds [id]. *)
Fixpoint holders (id : pystr) (key : nat) (l : list (option pystr)) : list nat :=
  match l with
  | [] => []
  | win :: l' =>
      if decide (win = Some id) then key :: holders id (S key) l'
      else holders id (S key) l'
  end.

(** Every identity in a slot is in the registry. *)
Definition slots_registered (st : State) : Prop :=
  forall key id, slots st !! key = Some (Some id) -> is_Some (windows st !! id).

(** The device takes every image it is given. *)
Definition device_accepts (env : Env) : Prop :=
  forall key image, env_device_ok env key image = true.

(** An event other than window-added. *)
Definition not_added (ev : event) : bool :=
  match ev with
  | EvWindowAdded _ _ _ => false
  | _ => true
  end.

(** A code point that [str.encode] takes: a code point that is no
    surrogate. *)
Definition scalar (c : N) : Prop :=
  (c < 0x110000)%N /\ ~ (0xD800 <= c < 0xE000)%N.

(** The file [desktop_file_from_wm_class] looks for. *)
Definition desktop_path (wm_class : pystr) : pystr :=
  match wm_class with
  | 47%N :: _ => wm_class ++ lit ".desktop"
  | _ => lit "/usr/share/applications/" ++ wm_class ++ lit ".desktop"
  end.

(** The calls of [main] after the observer script [h] is loaded. *)
Definition calls_after_load (env : Env) (h : LoadedKWinScript) : list call :=
  Run (_script_id h) ::
  if env_cancelled env (Run (_script_id h)) then [Stop (_script_id h)]
  else if env_remote_ok env (Run (_script_id h)) then
    WaitForDisconnect ::
    if env_cancelled env WaitForDisconnect then [Stop (_script_id h)] else []
  else [].

(** As [env_ok], the device refusing every image. *)
Definition env_device_refuses : Env := {|
  env_path_exists := fun _ => true;
  env_desktop_icon := fun _ => Ok (Some (lit "app"));
  env_lookup_icon := fun _ _ => Ok (Some 7%N);
  env_native_image := fun icon => Ok icon;
  env_device_ok := fun _ _ => false;
  env_mkstemp_ok := true;
  env_write := fun data => Some (length data);
  env_remote_ok := fun _ => true;
  env_cancelled := fun _ => false;
  env_script_id := fun filename => 40 + filename
|}.

(** As [env_ok], the host answering every request with an error. *)
Definition env_host_refuses : Env := {|
  env_path_exists := fun _ => true;
  env_desktop_icon := fun _ => Ok (Some (lit "app"));
  env_lookup_icon := fun _ _ => Ok (Some 7%N);
  env_native_image := fun icon => Ok icon;
  env_device_ok := fun _ _ => true;
  env_mkstemp_ok := true;
  env_write := fun data => Some (length data);
  env_remote_ok := fun _ => false;
  env_cancelled := fun _ => false;
  env_script_id := fun filename => 40 + filename
|}.

(** As [env_ok], the image of every icon failing to load. *)
Definition env_image_fails : Env := {|
  env_path_exists := fun _ => true;
  env_desktop_icon := fun _ => Ok (Some (lit "app"));
  env_lookup_icon := fun _ _ => Ok (Some 7%N);
  env_native_image := fun _ => Raise ExternalError;
  env_device_ok := fun _ _ => true;
  env_mkstemp_ok := true;
  env_write := fun data => Some (length data);
  env_remote_ok := fun _ => true;
  env_cancelled := fun _ => false;
  env_script_id := fun filename => 40 + filename
|}.

(** The state after the window-added event of W1 in [env_ok]. *)
Definition st_one : State :=
  step (init 8) (env_ok, EvWindowAdded W1 (lit "one") (lit "app")).

(** The request [c] is answered: the task is not cancelled while it waits
    and the host sends no error. *)
Definition answered (env : Env) (c : call) : Prop :=
  env_cancelled env c = false /\ env_remote_ok env c = true.

(** What the task gets when the request [c] is not answered. *)
Definition refusal (env : Env) (c : call) : exn :=
  if env_cancelled env c then CancelledError else DBusError.

(** The state a complete [load] of the encoding [b] reaches from [st], up to
    the request to load the file. *)
Definition written (st : State) (b : pybytes) : State :=
  mkState (windows st) (slots st) (files st ++ [Some b])
    (trace st ++ [Mkstemp (length (files st));
                  OsWrite (length (files st)) (length b);
                  LoadScript (length (files st))]).

(** The state a [load] that is answered reaches. *)
Definition loaded (env : Env) (st : State) (b : pybytes) : State :=
  mkState (windows st) (slots st) (files st ++ [Some b])
    (trace st ++ [Mkstemp (length (files st));
                  OsWrite (length (files st)) (length b);
                  LoadScript (length (files st));
                  OsClose (length (files st));
                  Introspect (env_script_id env (length (files st)))]).

(** The state of a [load] that ends before anything is written. *)
Definition unwritten (st : State) : State :=
  mkState (windows st) (slots st) (files st ++ [Some []])
    (trace st ++ [Mkstemp (length (files st))]).

#[global] Instance answered_dec env c : Decision (answered env c).
Proof. unfold answered. apply _. Defined.

(** As [env_ok], the icon theme raising for a name at every resolution but
    the first. *)
Definition env_first_resolution : Env := {|
  env_path_exists := fun _ => true;
  env_desktop_icon := fun _ => Ok (Some (lit "app"));
  env_lookup_icon := fun icon resolution =>
    match icon with
    | Some _ => if bool_decide (resolution = 16%N) then Ok (Some 7%N)
                else Raise ExternalError
    | None => Ok (Some 7%N)
    end;
  env_native_image := fun icon => Ok icon;
  env_device_ok := fun _ _ => true;
  env_mkstemp_ok := true;
  env_write := fun data => Some (length data);
  env_remote_ok := fun _ => true;
  env_cancelled := fun _ => false;
  env_script_id := fun filename => 40 + filename
|}.

(** A call of [load] or [run]. *)
Definition is_load_or_run (c : call) : Prop :=
  match c with
  | Mkstemp _ | OsWrite _ _ | LoadScript _ | OsClose _ | Introspect _ | Run _ =>
      True
  | _ => False
  end.

(** A call of the device. *)
Definition is_device_call (c : call) : Prop :=
  match c with
  | SetKeyImage _ _ => True
  | _ => False
  end.

(** * Lemmas *)

(** ** The monad *)

Lemma bind_ok {A B} (c : M A) (f : A -> M B) env st a st' :
  c env st = (Ok a, st') -> (c ≫= f) env st = f a env st'.
Proof. intros H. unfold mbind, M_bind. by rewrite H. Qed.

Lemma bind_raise {A B} (c : M A) (f : A -> M B) env st e st' :
  c env st = (Raise e, st') -> (c ≫= f) env st = (Raise e, st').
Proof. intros H. unfold mbind, M_bind. by rewrite H. Qed.

Lemma bind_ret {A B} (a : A) (f : A -> M B) env st :
  (mret a ≫= f) env st = f a env st.
Proof. done. Qed.

(** ** Slot lists *)

Lemma first_empty_bounds l key k :
  first_empty l key = Some k -> key <= k < key + length l.
Proof.
  revert key. induction l as [|[w|] l IH]; intros key H; simpl in *.
  - done.
  - apply IH in H. lia.
  - injection H as <-. lia.
Qed.

Lemma first_empty_lookup l key k :
  first_empty l key = Some k -> l !! (k - key) = Some None.
Proof.
  revert key. induction l as [|[w|] l IH]; intros key H; simpl in *.
  - done.
  - pose proof (first_empty_bounds _ _ _ H) as Hb.
    apply IH in H. replace (k - key) with (S (k - S key)) by lia. done.
  - injection H as <-. by rewrite Nat.sub_diag.
Qed.

Lemma first_empty_before l key k i :
  first_empty l key = Some k -> i < k - key -> exists w, l !! i = Some (Some w).
Proof.
  revert key i. induction l as [|[w|] l IH]; intros key i H Hi; simpl in *.
  - done.
  - destruct i as [|i]; [by eexists|]. simpl.
    apply (IH (S key)); [done|lia].
  - injection H as <-. lia.
Qed.

Lemma first_empty_full l key :
  first_empty l key = None <-> Forall is_Some l.
Proof.
  revert key. induction l as [|[w|] l IH]; intros key; simpl.
  - done.
  - rewrite IH. split; [intros; constructor; eauto | by inversion 1].
  - split; [done|]. inversion 1 as [|? ? [? ?]]. done.
Qed.

Lemma length_assigned id l : length (assigned id l) = length l.
Proof. unfold assigned. destruct (first_empty l 0); [apply length_insert|done]. Qed.

Lemma length_released id dev key todo :
  length (released id dev key todo) = length todo.
Proof.
  revert key. induction todo as [|win todo IH]; intros key; simpl; [done|].
  case_decide; simpl; [destruct (dev key)|]; by rewrite ?IH.
Qed.

(** A slot of the released list holds what it held, or nothing. *)
Lemma released_lookup id dev key todo i w :
  released id dev key todo !! i = Some (Some w) -> todo !! i = Some (Some w).
Proof.
  revert key i. induction todo as [|win todo IH]; intros key i; simpl; [done|].
  case_decide.
  - destruct i as [|i]; simpl; [done|]. destruct (dev key); eauto.
  - destruct i as [|i]; simpl; eauto.
Qed.

(** Releasing an identity that is in no slot changes nothing. *)
Lemma released_absent id dev key todo :
  Some id ∉ todo -> released id dev key todo = todo.
Proof.
  revert key. induction todo as [|win todo IH]; intros key Hn; simpl; [done|].
  apply not_elem_of_cons in Hn as [Hne Hn].
  case_decide; [congruence|]. by rewrite IH.
Qed.

Lemma unique_slots_released id dev key l :
  unique_slots l -> unique_slots (released id dev key l).
Proof.
  intros Hu i j w Hi Hj. apply released_lookup in Hi, Hj. eauto.
Qed.

Lemma unique_slots_assigned id l :
  Some id ∉ l -> unique_slots l -> unique_slots (assigned id l).
Proof.
  intros Hn Hu. unfold assigned. destruct (first_empty l 0) as [k|] eqn:Hk; [|done].
  intros i j w Hi Hj.
  destruct (decide (i = k)) as [->|Hik], (decide (j = k)) as [->|Hjk]; [done|..].
  - rewrite list_lookup_insert_ne in Hj by done.
    apply list_lookup_insert_Some in Hi as [(_ & [= <-] & _)|[? _]]; [|done].
    destruct Hn. eapply list_elem_of_lookup_2, Hj.
  - rewrite list_lookup_insert_ne in Hi by done.
    apply list_lookup_insert_Some in Hj as [(_ & [= <-] & _)|[? _]]; [|done].
    destruct Hn. eapply list_elem_of_lookup_2, Hi.
  - rewrite list_lookup_insert_ne in Hi, Hj by done. eauto.
Qed.

(** Releasing right after assigning gives back the list. *)
Lemma released_insert_first_empty id dev key l k :
  Some id ∉ l -> first_empty l key = Some k ->
  released id dev key (<[k - key := Some id]> l) = l.
Proof.
  revert key. induction l as [|[w|] l IH]; intros key Hn Hk; simpl in *.
  - done.
  - apply not_elem_of_cons in Hn as [Hne Hn].
    pose proof (first_empty_bounds _ _ _ Hk) as Hb.
    replace (k - key) with (S (k - S key)) by lia. simpl.
    case_decide; [congruence|]. by rewrite IH.
  - injection Hk as <-. rewrite Nat.sub_diag. simpl.
    apply not_elem_of_cons in Hn as [_ Hn].
    case_decide; [|done]. destruct (dev key); [|done].
    by rewrite released_absent.
Qed.

Lemma released_assigned id dev l :
  Some id ∉ l -> released id dev 0 (assigned id l) = l.
Proof.
  intros Hn. unfold assigned. destruct (first_empty l 0) as [k|] eqn:Hk.
  - rewrite <-(Nat.sub_0_r k) at 1. by apply released_insert_first_empty.
  - by apply released_absent.
Qed.

(** ** The slot steps of the handlers *)

Lemma set_slots_same st : set_slots (slots st) st = st.
Proof. by destruct st. Qed.

Lemma assign_run id env st :
  assign id env st =
  (Ok (first_empty (slots st) 0), set_slots (assigned id (slots st)) st).
Proof.
  unfold assign, assigned, set_slot.
  destruct (first_empty (slots st) 0) as [k|] eqn:Hk.
  - apply first_empty_bounds in Hk. case_decide; [done|lia].
  - by rewrite set_slots_same.
Qed.

Lemma release_from_run id env key todo st visited :
  slots st = visited ++ todo -> length visited = key ->
  let st' := (release_from id key todo env st).2 in
  slots st' = visited ++ released id (fun k => env_device_ok env k None) key todo
  /\ windows st' = windows st /\ files st' = files st.
Proof.
  revert key st visited.
  induction todo as [|win todo IH]; intros key st visited Hs Hl; simpl.
  - by rewrite Hs.
  - unfold mbind, M_bind. case_decide as Hwin.
    + unfold set_slot, set_key_image. rewrite Hs.
      case_decide as Hlt; [|rewrite length_app in Hlt; simpl in Hlt; lia].
      rewrite insert_app_r_alt by lia.
      replace (key - length visited) with 0 by lia. simpl.
      destruct (env_device_ok env key None) eqn:Hdev; simpl; [|done].
      destruct (IH (S key)
        (record (SetKeyImage key None)
           (set_slots (visited ++ None :: todo) st)) (visited ++ [None]))
        as (H1 & H2 & H3).
      * simpl. by rewrite <-app_assoc.
      * rewrite length_app. simpl. lia.
      * rewrite H1, H2, H3. by rewrite <-app_assoc.
    + simpl.
      destruct (IH (S key) st (visited ++ [win])) as (H1 & H2 & H3).
      * rewrite Hs. by rewrite <-app_assoc.
      * rewrite length_app. simpl. lia.
      * rewrite H1, H2, H3. by rewrite <-app_assoc.
Qed.

Lemma release_slots id env st :
  slots (release id env st).2 =
  released id (fun k => env_device_ok env k None) 0 (slots st).
Proof.
  unfold release.
  by destruct (release_from_run id env 0 (slots st) st []) as (-> & _).
Qed.

Lemma release_windows id env st :
  windows (release id env st).2 = windows st.
Proof.
  unfold release.
  by destruct (release_from_run id env 0 (slots st) st []) as (_ & -> & _).
Qed.

(** ** Window added *)

Lemma WindowAdded_slots id cap rc env st :
  slots (WindowAdded id cap rc env st).2 =
  match get_icon_path_by_wm_class env rc with
  | Ok (Some icon) =>
      match env_native_image env icon with
      | Ok _ => assigned id (slots st)
      | Raise _ => slots st
      end
  | _ => slots st
  end.
Proof.
  unfold WindowAdded, external, native_image, register.
  unfold mbind, M_bind. destruct (get_icon_path_by_wm_class env rc) as [[icon|]|e]; simpl; [|done..].
  destruct (env_native_image env icon) as [img|e]; simpl; [|done].
  rewrite assign_run. destruct (first_empty (slots st) 0) as [k|]; simpl; [|done].
  unfold set_key_image. by destruct (env_device_ok env k (Some img)).
Qed.

(** A window-added event that is answered without an exception has put the
    window in the registry. *)
Lemma WindowAdded_windows id cap rc env st :
  (WindowAdded id cap rc env st).1 = Ok tt ->
  windows (WindowAdded id cap rc env st).2
  = <[id := mkWindowData id cap rc]> (windows st).
Proof.
  unfold WindowAdded, external, native_image, register.
  unfold mbind, M_bind. destruct (get_icon_path_by_wm_class env rc) as [[icon|]|e]; simpl; [|done..].
  destruct (env_native_image env icon) as [img|e]; simpl; [|done].
  rewrite assign_run. destruct (first_empty (slots st) 0) as [k|]; simpl; [|done].
  unfold set_key_image. by destruct (env_device_ok env k (Some img)).
Qed.

(** When a window-added event is answered without an exception. *)
Lemma WindowAdded_result id cap rc env st :
  (WindowAdded id cap rc env st).1 =
  match get_icon_path_by_wm_class env rc with
  | Ok (Some icon) =>
      match env_native_image env icon with
      | Ok img =>
          match first_empty (slots st) 0 with
          | Some k =>
              if env_device_ok env k (Some img) then Ok tt else Raise ExternalError
          | None => Ok tt
          end
      | Raise e => Raise e
      end
  | Ok None => Ok tt
  | Raise e => Raise e
  end.
Proof.
  unfold WindowAdded, external, native_image, register.
  unfold mbind, M_bind. destruct (get_icon_path_by_wm_class env rc) as [[icon|]|e]; simpl; [|done..].
  destruct (env_native_image env icon) as [img|e]; simpl; [|done].
  rewrite assign_run. destruct (first_empty (slots st) 0) as [k|]; simpl; [|done].
  unfold set_key_image. by destruct (env_device_ok env k (Some img)).
Qed.

(** The calls of a window-added event on a full slot list: none. *)
Lemma WindowAdded_full_trace id cap rc env st :
  Forall is_Some (slots st) ->
  trace (WindowAdded id cap rc env st).2 = trace st.
Proof.
  intros Hfull%(first_empty_full _ 0).
  unfold WindowAdded, external, native_image, register.
  unfold mbind, M_bind. destruct (get_icon_path_by_wm_class env rc) as [[icon|]|e]; simpl; [|done..].
  destruct (env_native_image env icon) as [img|e]; simpl; [|done].
  rewrite assign_run, Hfull. done.
Qed.

(** ** Window removed *)

Lemma WindowRemoved_unknown id env st :
  windows st !! id = None -> WindowRemoved id env st = (Raise KeyError, st).
Proof.
  intros H. unfold WindowRemoved, unregister, mbind, M_bind. by rewrite H.
Qed.

Lemma WindowRemoved_slots id env st :
  slots (WindowRemoved id env st).2 =
  match windows st !! id with
  | Some _ => released id (fun k => env_device_ok env k None) 0 (slots st)
  | None => slots st
  end.
Proof.
  unfold WindowRemoved, unregister, mbind, M_bind.
  destruct (windows st !! id); simpl; [|done].
  by rewrite release_slots.
Qed.

(** ** What the runner and the key callback leave alone *)

Create HintDb keeps.

Lemma keeps_ret {A} (a : A) : keeps_listener (mret a).
Proof. done. Qed.

Lemma keeps_raise {A} e : keeps_listener (@raise A e).
Proof. done. Qed.

Lemma keeps_bind {A B} (c : M A) (f : A -> M B) :
  keeps_listener c -> (forall a, keeps_listener (f a)) -> keeps_listener (c ≫= f).
Proof.
  intros Hc Hf env st. unfold mbind, M_bind.
  destruct (Hc env st) as [H1 H2].
  destruct (c env st) as [[a|e] st1]; simpl in *; [|done].
  destruct (Hf a env st1) as [H3 H4]. by rewrite H3, H4.
Qed.

Lemma keeps_try_except {A} (c h : M A) e :
  keeps_listener c -> keeps_listener h -> keeps_listener (try_except c e h).
Proof.
  intros Hc Hh env st. unfold try_except.
  destruct (Hc env st) as [H1 H2].
  destruct (c env st) as [[a|e'] st1]; simpl in *; [done|].
  case_decide; [|done].
  destruct (Hh env st1) as [H3 H4]. by rewrite H3, H4.
Qed.

Lemma keeps_mkstemp : keeps_listener mkstemp.
Proof. intros env st. unfold mkstemp. by destruct (env_mkstemp_ok env). Qed.

Lemma keeps_encode s : keeps_listener (encode s).
Proof. unfold encode. by destruct (utf8 s). Qed.

Lemma keeps_os_write fd data : keeps_listener (os_write fd data).
Proof.
  intros env st. unfold os_write.
  by destruct (env_write env data), (files st !! fd) as [[?|]|].
Qed.

Lemma keeps_os_close fd : keeps_listener (os_close fd).
Proof. done. Qed.

Lemma keeps_assert b : keeps_listener (assert b).
Proof. by destruct b. Qed.

Lemma keeps_request c : keeps_listener (request c).
Proof.
  intros env st. unfold request.
  by destruct (env_cancelled env c), (env_remote_ok env c).
Qed.

Lemma keeps_answer {A} (f : Env -> A) : keeps_listener (answer f).
Proof. done. Qed.

#[local] Hint Resolve keeps_ret keeps_raise keeps_mkstemp keeps_encode
  keeps_os_write keeps_os_close keeps_assert keeps_request keeps_answer : keeps.

Ltac keeps_steps :=
  repeat first
    [ solve [auto with keeps]
    | apply keeps_bind; [|intros ?]
    | apply keeps_try_except ].

Lemma keeps_load script : keeps_listener (load script).
Proof.
  unfold load, call_load_script.
  apply keeps_bind; [auto with keeps|intros [fd filename]]. keeps_steps.
Qed.

Lemma keeps_run script : keeps_listener (run script).
Proof. apply keeps_request. Qed.

Lemma keeps_stop script : keeps_listener (stop script).
Proof. apply keeps_request. Qed.

Lemma keeps_slot key : keeps_listener (slot key).
Proof. intros env st. unfold slot. by destruct (slots st !! key). Qed.

Lemma keeps_add_str s win : keeps_listener (add_str s win).
Proof. by destruct win. Qed.

#[local] Hint Resolve keeps_load keeps_run keeps_stop keeps_slot keeps_add_str
  : keeps.

Lemma keeps_handle_press key state : keeps_listener (handle_press key state).
Proof. unfold handle_press. destruct state; keeps_steps. Qed.

Lemma keeps_main : keeps_listener main.
Proof. unfold main. keeps_steps. Qed.

(** ** Runs of events *)

Lemma step_slots st env ev :
  slots (step st (env, ev)) =
  match ev with
  | EvWindowAdded id cap rc => slots (WindowAdded id cap rc env st).2
  | EvWindowRemoved id => slots (WindowRemoved id env st).2
  | EvLog _ | EvKey _ _ => slots st
  end.
Proof.
  unfold step. destruct ev; simpl; [done..|]. apply keeps_handle_press.
Qed.

Lemma step_length st ev : length (slots (step st ev)) = length (slots st).
Proof.
  destruct ev as [env [id cap rc|id|msg|key state]]; rewrite step_slots.
  - rewrite WindowAdded_slots.
    destruct (get_icon_path_by_wm_class env rc) as [[icon|]|]; [|done..].
    destruct (env_native_image env icon); [apply length_assigned|done].
  - rewrite WindowRemoved_slots.
    destruct (windows st !! id); [apply length_released|done].
  - done.
  - done.
Qed.

Lemma process_length evs st :
  length (slots (process evs st)) = length (slots st).
Proof.
  revert st. induction evs as [|ev evs IH]; intros st; simpl; [done|].
  unfold process in *. simpl. by rewrite IH, step_length.
Qed.

Lemma step_unique st ev :
  fresh_adds [ev] st = true ->
  unique_slots (slots st) -> unique_slots (slots (step st ev)).
Proof.
  destruct ev as [env [id cap rc|id|msg|key state]]; simpl; intros Hf Hu;
    rewrite step_slots.
  - rewrite andb_true_r in Hf. apply bool_decide_eq_true in Hf.
    rewrite WindowAdded_slots.
    destruct (get_icon_path_by_wm_class env rc) as [[icon|]|]; [|done..].
    destruct (env_native_image env icon); [|done].
    by apply unique_slots_assigned.
  - rewrite WindowRemoved_slots.
    destruct (windows st !! id); [|done]. by apply unique_slots_released.
  - done.
  - done.
Qed.

Lemma fresh_adds_cons ev evs st :
  fresh_adds (ev :: evs) st = fresh_adds [ev] st && fresh_adds evs (step st ev).
Proof. simpl. by rewrite andb_true_r. Qed.

Lemma fresh_adds_take k evs st :
  fresh_adds evs st = true -> fresh_adds (take k evs) st = true.
Proof.
  revert k st. induction evs as [|ev evs IH]; intros [|k] st; simpl; try done.
  rewrite !andb_true_iff. intros [? ?]. eauto.
Qed.

Lemma process_unique evs st :
  fresh_adds evs st = true ->
  unique_slots (slots st) -> unique_slots (slots (process evs st)).
Proof.
  revert st. induction evs as [|ev evs IH]; intros st Hf Hu; [done|].
  rewrite fresh_adds_cons in Hf. apply andb_true_iff in Hf as [H1 H2].
  unfold process in *. simpl. apply IH; [done|]. by apply step_unique.
Qed.

Lemma unique_slots_init n : unique_slots (slots (init n)).
Proof.
  intros i j id Hi. simpl in Hi.
  do 8 (destruct i as [|i]; [done|]). done.
Qed.

(** * Registry and slots *)

(** ** Uniqueness of identities in the slots *)

(** C1, as stated, fails: two window-added events with the identity W1 put
    W1 in slot 0 and in slot 1. *)
Lemma duplicate_add_breaks_uniqueness :
  ~ unique_slots (slots (process evs_duplicate (init 8))).
Proof.
  intros H. assert (0 = 1) as Heq; [|done].
  apply (H 0 1 W1); vm_compute; reflexivity.
Qed.

(** C1, amended: from the empty slot list of [__init__], along every run of
    window-added, window-removed and key events in which no window-added
    event carries an identity that is in a slot when it arrives, after every
    prefix of the run each identity is in at most one slot. *)
Theorem slots_unique_along_run (n : nat) (evs : list (Env * event)) (k : nat) :
  fresh_adds evs (init n) = true ->
  unique_slots (slots (process (take k evs) (init n))).
Proof.
  intros Hf. apply process_unique.
  - by apply fresh_adds_take.
  - apply unique_slots_init.
Qed.

Lemma slots_unique_along_run_witness :
  fresh_adds evs_reuse (init 8) = true /\
  unique_slots (slots (process (take 5 evs_reuse) (init 8))).
Proof.
  split.
  - vm_compute. reflexivity.
  - apply (slots_unique_along_run 8 evs_reuse 5). vm_compute. reflexivity.
Defined.

(** ** Removal of an unknown identity *)

(** C2, as stated, fails: W1 is neither registered nor in a slot of the
    initial state, and its window-removed event is answered with an
    exception. *)
Lemma unknown_removal_not_tolerated :
  windows (init 8) !! W1 = None /\ (Some W1 ∉ slots (init 8)) /\
  ~ removal_tolerated env_ok (init 8) W1.
Proof.
  split; [done|]. split.
  - apply (bool_decide_unpack _). vm_compute. exact I.
  - intros [H _]. by rewrite WindowRemoved_unknown in H.
Qed.

(** C2, amended: a window-removed event for an identity that is not in the
    registry and in no slot raises [KeyError] to its caller at
    [del self.windows[uuid]], before the slots are scanned; the registry,
    every slot and the device are left as they were. *)
Theorem WindowRemoved_unknown_raises (id : pystr) (env : Env) (st : State) :
  windows st !! id = None -> Some id ∉ slots st ->
  WindowRemoved id env st = (Raise KeyError, st).
Proof. intros H _. by apply WindowRemoved_unknown. Qed.

Lemma WindowRemoved_unknown_raises_witness :
  WindowRemoved W1 env_ok (init 8) = (Raise KeyError, init 8).
Proof.
  apply (WindowRemoved_unknown_raises W1 env_ok (init 8)).
  - reflexivity.
  - apply (bool_decide_unpack _). vm_compute. exact I.
Defined.

(** ** The number of slots *)

(** C6, as stated, fails: for a deck that reports fifteen keys the slot list
    does not have fifteen slots. *)
Lemma slot_count_ignores_deck : length (slots (init 15)) <> 15.
Proof. simpl. lia. Qed.

(** C6, amended: at construction the registry is empty and the slot list is
    eight empty slots, whatever key count the deck reports, and after every
    run of events the slot list still has eight slots. *)
Theorem slot_count_is_eight (n : nat) (evs : list (Env * event)) :
  windows (init n) = ∅ /\ slots (init n) = replicate 8 None /\
  length (slots (process evs (init n))) = 8.
Proof. split; [done|]. split; [done|]. by rewrite process_length. Qed.

(** ** Window added: slot and registry *)

(** C7, as stated, fails: when the class of the window has no icon, the
    first slot of the empty slot list is free and is not claimed. *)
Lemma no_icon_no_slot :
  ~ claims_free_slot env_no_icon (init 8) W1 (lit "one") (lit "app").
Proof. intros H. specialize (H 0 eq_refl). vm_compute in H. done. Qed.

(** C7, amended: a window-added event that is answered without an exception
    has put the window in the registry, whether or not a slot was free; if
    the icon lookup gave an icon, the slots are those after the assignment
    and the first free slot, if there is one, holds the identity; if it gave
    none, the slots are as they were. *)
Theorem WindowAdded_completed (id cap rc : pystr) (env : Env) (st : State) :
  (WindowAdded id cap rc env st).1 = Ok tt ->
  windows (WindowAdded id cap rc env st).2 !! id = Some (mkWindowData id cap rc)
  /\ match get_icon_path_by_wm_class env rc with
     | Ok (Some _) =>
         slots (WindowAdded id cap rc env st).2 = assigned id (slots st) /\
         claims_free_slot env st id cap rc
     | _ => slots (WindowAdded id cap rc env st).2 = slots st
     end.
Proof.
  intros Hok. split.
  - rewrite WindowAdded_windows by done. apply lookup_insert_eq.
  - pose proof (WindowAdded_slots id cap rc env st) as Hs.
    rewrite WindowAdded_result in Hok.
    destruct (get_icon_path_by_wm_class env rc) as [[icon|]|e]; [|done..].
    destruct (env_native_image env icon) as [img|e]; [|done].
    split; [done|]. intros k Hk. rewrite Hs. unfold assigned. rewrite Hk.
    apply first_empty_bounds in Hk. apply list_lookup_insert_eq. lia.
Qed.

Lemma WindowAdded_completed_witness :
  windows (WindowAdded W1 (lit "one") (lit "app") env_ok (init 8)).2 !! W1
    = Some (mkWindowData W1 (lit "one") (lit "app"))
  /\ slots (WindowAdded W1 (lit "one") (lit "app") env_ok (init 8)).2
       = assigned W1 (slots (init 8))
  /\ claims_free_slot env_ok (init 8) W1 (lit "one") (lit "app").
Proof.
  apply (WindowAdded_completed W1 (lit "one") (lit "app") env_ok (init 8)).
  vm_compute. reflexivity.
Defined.

(** ** A full slot list *)

(** C8: when every slot is taken, the assignment of lines 255-260 answers
    [None] and changes nothing; the window-added event leaves every slot as
    it was, sends nothing to the device, and raises nothing of its own: it
    is answered without an exception unless the icon lookup or the image
    preparation raised one. *)
Theorem assign_full (id cap rc : pystr) (env : Env) (st : State) :
  Forall is_Some (slots st) ->
  assign id env st = (Ok None, st) /\
  slots (WindowAdded id cap rc env st).2 = slots st /\
  trace (WindowAdded id cap rc env st).2 = trace st /\
  (WindowAdded id cap rc env st).1 =
    match get_icon_path_by_wm_class env rc with
    | Ok (Some icon) =>
        match env_native_image env icon with
        | Ok _ => Ok tt
        | Raise e => Raise e
        end
    | Ok None => Ok tt
    | Raise e => Raise e
    end.
Proof.
  intros Hfull. pose proof Hfull as Hnone%(first_empty_full _ 0).
  repeat split.
  - rewrite assign_run. unfold assigned. rewrite Hnone. by rewrite set_slots_same.
  - rewrite WindowAdded_slots. unfold assigned. rewrite Hnone.
    destruct (get_icon_path_by_wm_class env rc) as [[icon|]|]; [|done..].
    by destruct (env_native_image env icon).
  - by apply WindowAdded_full_trace.
  - rewrite WindowAdded_result, Hnone. done.
Qed.

Lemma assign_full_witness :
  Forall is_Some (slots st_full) /\
  assign W1 env_ok st_full = (Ok None, st_full) /\
  slots (WindowAdded W1 (lit "one") (lit "app") env_ok st_full).2 = slots st_full /\
  trace (WindowAdded W1 (lit "one") (lit "app") env_ok st_full).2 = trace st_full /\
  (WindowAdded W1 (lit "one") (lit "app") env_ok st_full).1 = Ok tt.
Proof.
  assert (Forall is_Some (slots st_full)) as Hfull.
  { vm_compute. repeat constructor; by eexists. }
  split; [exact Hfull|].
  exact (assign_full W1 (lit "one") (lit "app") env_ok st_full Hfull).
Defined.

(** ** Assignment followed by release *)

(** C9: on a slot list in which no identity is in two slots and [id] is in
    none, the assignment of lines 255-260 followed by the release loop of
    lines 268-271 leaves every slot as it was before the assignment; so does
    a window-added event that is answered without an exception followed by
    the window-removed event of the same identity. *)
Theorem assign_release_roundtrip (id : pystr) (env1 env2 : Env) (st : State) :
  unique_slots (slots st) -> Some id ∉ slots st ->
  slots (release id env2 (assign id env1 st).2).2 = slots st /\
  forall cap rc,
    (WindowAdded id cap rc env1 st).1 = Ok tt ->
    slots (WindowRemoved id env2 (WindowAdded id cap rc env1 st).2).2 = slots st.
Proof.
  intros _ Hn. split.
  - rewrite release_slots, assign_run. simpl. by apply released_assigned.
  - intros cap rc Hok. rewrite WindowRemoved_slots.
    rewrite WindowAdded_windows by done. rewrite lookup_insert_eq.
    rewrite WindowAdded_slots.
    destruct (get_icon_path_by_wm_class env1 rc) as [[icon|]|]; [|by apply released_absent..].
    destruct (env_native_image env1 icon);
      [by apply released_assigned|by apply released_absent].
Qed.

Lemma assign_release_roundtrip_witness :
  slots (release W2 env_ok (assign W2 env_ok
           (WindowAdded W1 (lit "one") (lit "app") env_ok (init 8)).2).2).2
  = slots (WindowAdded W1 (lit "one") (lit "app") env_ok (init 8)).2 /\
  forall cap rc,
    (WindowAdded W2 cap rc env_ok
       (WindowAdded W1 (lit "one") (lit "app") env_ok (init 8)).2).1 = Ok tt ->
    slots (WindowRemoved W2 env_ok
             (WindowAdded W2 cap rc env_ok
                (WindowAdded W1 (lit "one") (lit "app") env_ok (init 8)).2).2).2
    = slots (WindowAdded W1 (lit "one") (lit "app") env_ok (init 8)).2.
Proof.
  apply (assign_release_roundtrip W2 env_ok env_ok
           (WindowAdded W1 (lit "one") (lit "app") env_ok (init 8)).2).
  - intros i j id Hi Hj. vm_compute in Hi, Hj.
    destruct i as [|i]; [|do 7 (destruct i as [|i]; [done|]); done].
    destruct j as [|j]; [done|]. do 7 (destruct j as [|j]; [done|]). done.
  - apply (bool_decide_unpack _). vm_compute. exact I.
Defined.

(** * Key presses and shutdown *)

(** ** Key presses *)

Lemma handle_press_empty key state env st :
  slots st !! key = Some None ->
  handle_press key state env st = (Raise TypeError, st).
Proof.
  intros H. unfold handle_press, slot, mbind, M_bind. by rewrite H.
Qed.

Lemma handle_press_out_of_range key state env st :
  slots st !! key = None ->
  handle_press key state env st = (Raise IndexError, st).
Proof.
  intros H. unfold handle_press, slot, mbind, M_bind. by rewrite H.
Qed.

(** On a slot that holds [id] the script is [activation_script id]; it is
    loaded and run when the key goes down, and nothing is done when it goes
    up. *)
Lemma handle_press_occupied key state id env st :
  slots st !! key = Some (Some id) ->
  handle_press key state env st =
  if state then (load (activation_script id) ≫= run) env st else (Ok tt, st).
Proof.
  intros H. unfold handle_press, slot, mbind, M_bind. rewrite H. simpl.
  rewrite H. simpl. unfold activation_script.
  rewrite <-!app_assoc. by destruct state.
Qed.

(** A key event on an empty slot, and a key going up on any slot, issue no
    call at all. *)
Lemma handle_press_no_call key state env st :
  slots st !! key = Some None \/ state = false ->
  trace (handle_press key state env st).2 = trace st.
Proof.
  intros [H| ->].
  - by rewrite handle_press_empty.
  - destruct (slots st !! key) as [[id|]|] eqn:Hk.
    + by rewrite (handle_press_occupied _ _ id).
    + by rewrite handle_press_empty.
    + by rewrite handle_press_out_of_range.
Qed.

(** C3: code and claim part ways on an empty slot.  In the state
    [__init__] leaves, a key event on slot 0, down or up, is not a no-op:
    [_cb] raises [TypeError] where it appends the [None] of the slot to the
    script text.  No call has been issued by then. *)
Theorem handle_press_empty_slot_raises (state : bool) (env : Env) (n : nat) :
  handle_press 0 state env (init n) = (Raise TypeError, init n).
Proof. by apply handle_press_empty. Qed.

(** ** Calls issued *)

Lemma issues_ret {A} P (a : A) : issues P (mret a).
Proof. intros env st. exists []. by rewrite app_nil_r. Qed.

Lemma issues_raise {A} P e : issues P (@raise A e).
Proof. intros env st. exists []. by rewrite app_nil_r. Qed.

Lemma issues_bind {A B} P (c : M A) (f : A -> M B) :
  issues P c -> (forall a, issues P (f a)) -> issues P (c ≫= f).
Proof.
  intros Hc Hf env st. unfold mbind, M_bind.
  destruct (Hc env st) as (new1 & H1 & HP1).
  destruct (c env st) as [[a|e] st1]; simpl in *; [|by exists new1].
  destruct (Hf a env st1) as (new2 & H2 & HP2).
  exists (new1 ++ new2). rewrite H2, H1, app_assoc. split; [done|].
  by apply Forall_app.
Qed.

Lemma issues_try_except {A} P (c h : M A) e :
  issues P c -> issues P h -> issues P (try_except c e h).
Proof.
  intros Hc Hh env st. unfold try_except.
  destruct (Hc env st) as (new1 & H1 & HP1).
  destruct (c env st) as [[a|e'] st1]; simpl in *; [by exists new1|].
  case_decide; [|by exists new1].
  destruct (Hh env st1) as (new2 & H2 & HP2).
  exists (new1 ++ new2). rewrite H2, H1, app_assoc. split; [done|].
  by apply Forall_app.
Qed.

Lemma issues_request P c : P c -> issues P (request c).
Proof.
  intros HP env st. exists [c]. unfold request.
  destruct (env_cancelled env c), (env_remote_ok env c); simpl; by repeat constructor.
Qed.

Lemma issues_mkstemp P : (forall f, P (Mkstemp f)) -> issues P mkstemp.
Proof.
  intros HP env st. unfold mkstemp. destruct (env_mkstemp_ok env); simpl.
  - eexists [_]. by repeat constructor.
  - exists []. by rewrite app_nil_r.
Qed.

Lemma issues_os_write P fd data :
  (forall n, P (OsWrite fd n)) -> issues P (os_write fd data).
Proof.
  intros HP env st. unfold os_write.
  destruct (env_write env data), (files st !! fd) as [[?|]|]; simpl;
    solve [eexists [_]; by repeat constructor | exists []; by rewrite app_nil_r].
Qed.

Lemma issues_os_close P fd : P (OsClose fd) -> issues P (os_close fd).
Proof. intros HP env st. exists [OsClose fd]. by repeat constructor. Qed.

Lemma issues_encode P s : issues P (encode s).
Proof. unfold encode. destruct (utf8 s); [apply issues_ret|apply issues_raise]. Qed.

Lemma issues_assert P b : issues P (assert b).
Proof. destruct b; [apply issues_ret|apply issues_raise]. Qed.

Lemma issues_answer {A} P (f : Env -> A) : issues P (answer f).
Proof. intros env st. exists []. by rewrite app_nil_r. Qed.

Ltac no_unload := intros; intros [].

Lemma issues_load script : issues (fun c => ~ is_unload c) (load script).
Proof.
  unfold load, call_load_script.
  apply issues_bind; [apply issues_mkstemp; no_unload|intros [fd filename]].
  apply issues_bind; [apply issues_encode|intros b].
  apply issues_bind; [apply issues_os_write; no_unload|intros n].
  apply issues_bind; [apply issues_assert|intros _].
  apply issues_bind.
  { apply issues_bind; [apply issues_request; no_unload|].
    intros _; apply issues_answer. }
  intros script_id.
  apply issues_bind; [apply issues_os_close; no_unload|intros _].
  apply issues_bind; [apply issues_request; no_unload|intros _; apply issues_ret].
Qed.

(** In no environment does [main] ask for the observer script to be
    unloaded or remove its file. *)
Lemma main_never_unloads : issues (fun c => ~ is_unload c) main.
Proof.
  unfold main. apply issues_bind; [apply issues_load|intros script].
  apply issues_try_except.
  - apply issues_bind; [apply issues_request; no_unload|].
    intros _; apply issues_request; no_unload.
  - apply issues_request; no_unload.
Qed.

(** C5: code and claim part ways at shutdown.  The observer script is
    loaded and running and the task is cancelled while it waits for the
    disconnect: [main] sends one stop for the script and ends; nothing is
    sent to unload the script and its temp file stays. *)
Theorem main_terminated_stops_only :
  (main env_terminated (init 8)).1 = Ok tt /\
  trace (main env_terminated (init 8)).2 =
    [Mkstemp 0; OsWrite 0 1569; LoadScript 0; OsClose 0; Introspect 40;
     Run 40; WaitForDisconnect; Stop 40] /\
  files (main env_terminated (init 8)).2 = [utf8 SCRIPT].
Proof. vm_compute. done. Qed.

(** * Scripts *)

(** ** The encoding *)

Lemma encode_code_point_ascii c : (c < 0x80)%N -> encode_code_point c = Some [c].
Proof. intros H. unfold encode_code_point. by rewrite (proj2 (N.ltb_lt _ _) H). Qed.

(** An ASCII text is its own encoding. *)
Lemma utf8_ascii s : Forall (fun c => (c < 0x80)%N) s -> utf8 s = Some s.
Proof.
  induction 1 as [|c s Hc _ IH]; simpl; [done|].
  by rewrite encode_code_point_ascii, IH.
Qed.

(** Every code point of a string that is not a surrogate has an encoding. *)
Lemma utf8_defined s :
  Forall (fun c => (c < 0x110000)%N /\ ~ (0xD800 <= c < 0xE000)%N) s ->
  is_Some (utf8 s).
Proof.
  induction 1 as [|c s [Hc Hs] _ [b IH]]; simpl; [by eexists|].
  rewrite IH. unfold encode_code_point.
  destruct (N.ltb_spec c 0x80); [by eexists|].
  destruct (N.ltb_spec c 0x800); [by eexists|].
  destruct (N.ltb_spec c 0x10000).
  - destruct (N.leb_spec 0xD800 c), (N.ltb_spec c 0xE000); simpl; try by eexists.
    lia.
  - destruct (N.ltb_spec c 0x110000); [by eexists|lia].
Qed.

Lemma lor_below_256 a b : (a < 256)%N -> (b < 256)%N -> (N.lor a b < 256)%N.
Proof.
  intros Ha Hb.
  destruct (decide (N.lor a b = 0%N)) as [->|Hne]; [lia|].
  apply (N.log2_lt_pow2 _ 8); [lia|].
  rewrite N.log2_lor.
  destruct (decide (a = 0%N)) as [->|], (decide (b = 0%N)) as [->|]; simpl;
    try (apply N.max_lub_lt); try (apply N.log2_lt_pow2; lia); try lia.
Qed.

Lemma encode_code_point_bytes c b :
  encode_code_point c = Some b -> Forall (fun x => (x < 256)%N) b.
Proof.
  unfold encode_code_point.
  assert (forall x, (N.land x 0x3F < 256)%N) as Hland.
  { intros x. change 0x3F%N with (N.ones 6). rewrite N.land_ones.
    pose proof (N.mod_upper_bound x (2 ^ 6)). lia. }
  assert (forall x k, (x < 2 ^ (k + 8))%N -> (N.shiftr x k < 256)%N) as Hshr.
  { intros x k Hx. rewrite N.shiftr_div_pow2.
    apply N.Div0.div_lt_upper_bound. rewrite N.pow_add_r in Hx. lia. }
  destruct (N.ltb_spec c 0x80); [intros [= <-]; repeat constructor; lia|].
  destruct (N.ltb_spec c 0x800).
  { intros [= <-]. repeat constructor; apply lor_below_256; auto; try lia.
    apply Hshr. simpl. lia. }
  destruct (N.ltb_spec c 0x10000).
  { destruct (_ && _); [done|].
    intros [= <-]. repeat constructor; apply lor_below_256; auto; try lia.
    apply Hshr. simpl. lia. }
  destruct (N.ltb_spec c 0x110000); [|done].
  intros [= <-]. repeat constructor; apply lor_below_256; auto; try lia.
  apply Hshr. simpl. lia.
Qed.

(** The encoding is made of bytes. *)
Lemma utf8_bytes s b : utf8 s = Some b -> Forall (fun x => (x < 256)%N) b.
Proof.
  revert b. induction s as [|c s IH]; simpl; intros b.
  - by intros [= <-].
  - destruct (encode_code_point c) as [b1|] eqn:Hc; [|done].
    destruct (utf8 s) as [b2|]; [|done]. intros [= <-].
    apply Forall_app. split; [by eapply encode_code_point_bytes|by apply IH].
Qed.

(** Two, three and four bytes, and a surrogate. *)
Example utf8_e_acute : utf8 [0xE9%N] = Some [0xC3; 0xA9]%N.
Proof. reflexivity. Qed.
Example utf8_euro : utf8 [0x20AC%N] = Some [0xE2; 0x82; 0xAC]%N.
Proof. reflexivity. Qed.
Example utf8_emoji : utf8 [0x1F600%N] = Some [0xF0; 0x9F; 0x98; 0x80]%N.
Proof. reflexivity. Qed.
Example utf8_surrogate : utf8 [0xD800%N] = None.
Proof. reflexivity. Qed.

(** ** Loading a script *)

Lemma lookup_fresh {A} (l : list A) x : (l ++ [x]) !! length l = Some x.
Proof. by rewrite lookup_app_r, Nat.sub_diag. Qed.

Lemma insert_fresh {A} (l : list A) x y :
  <[length l := y]> (l ++ [x]) = l ++ [y].
Proof. by rewrite insert_app_r_alt, Nat.sub_diag. Qed.

Lemma mkstemp_run env st :
  env_mkstemp_ok env = true ->
  mkstemp env st =
  (Ok (length (files st), length (files st)),
   record (Mkstemp (length (files st))) (set_files (files st ++ [Some []]) st)).
Proof. intros H. unfold mkstemp. by rewrite H. Qed.

Lemma encode_run script b env st :
  utf8 script = Some b -> encode script env st = (Ok b, st).
Proof. intros H. unfold encode. by rewrite H. Qed.

(** The write to the file [mkstemp] has just made. *)
Lemma os_write_run b n env st :
  env_write env b = Some n ->
  os_write (length (files st)) b env
    (record (Mkstemp (length (files st))) (set_files (files st ++ [Some []]) st))
  = (Ok (n `min` length b), short_written st b (n `min` length b)).
Proof.
  intros H. unfold os_write. rewrite H. simpl. rewrite lookup_fresh.
  unfold short_written, record, set_files. simpl.
  by rewrite insert_fresh, <-app_assoc.
Qed.

(** With a short write [load_writes_all] fails: the system takes three of
    the five bytes of the script text, the file is left with those three,
    and the assertion fails. *)
Lemma short_write_fails_assertion :
  ~ load_writes_all env_short_write (init 8) (lit "hello").
Proof. intros (b & _ & _ & Hr). apply Hr. vm_compute. reflexivity. Qed.

(** [load] around its assertion, for a script text with a UTF-8 encoding
    [b], once [mkstemp] has made the temp file (a file that did not exist)
    and [os.write] has answered: if the system took all of [b], the file
    holds the whole of [b], the write comes before the request to load the
    file, and the assertion holds; if it took fewer bytes, the assertion
    fails, [load] raises [AssertionError] with the file holding what was
    taken, and the host is not asked to load it. *)
Theorem load_write_then_ask (script : pystr) (env : Env) (st : State)
    (b : pybytes) (n : nat) :
  env_mkstemp_ok env = true -> utf8 script = Some b -> env_write env b = Some n ->
  let f := length (files st) in
  files st !! f = None /\
  if decide (length b <= n) then
    files (load script env st).2 !! f = Some (Some b) /\
    (load script env st).1 <> Raise AssertionError /\
    exists rest, trace (load script env st).2 =
      trace st ++ Mkstemp f :: OsWrite f (length b) :: LoadScript f :: rest
  else
    load script env st = (Raise AssertionError, short_written st b n).
Proof.
  intros Hmk Hb Hw f. subst f. split; [by apply lookup_ge_None_2|].
  unfold load.
  erewrite bind_ok by (by apply mkstemp_run). cbv beta iota.
  erewrite bind_ok by (by apply encode_run).
  erewrite bind_ok by (by apply os_write_run).
  unfold assert. case_decide as Hn.
  - rewrite Nat.min_r by done.
    rewrite bool_decide_eq_true_2 by done. rewrite bind_ret.
    unfold short_written. rewrite firstn_all.
    unfold call_load_script, request, answer, os_close, mbind, M_bind. simpl.
    destruct (env_cancelled env (LoadScript (length (files st)))),
      (env_remote_ok env (LoadScript (length (files st))));
      simpl;
      try destruct
        (env_cancelled env (Introspect (env_script_id env (length (files st)))));
      try destruct
        (env_remote_ok env (Introspect (env_script_id env (length (files st)))));
      simpl; rewrite lookup_fresh, <-?app_assoc; simpl; eauto.
  - rewrite Nat.min_l by lia.
    rewrite bool_decide_eq_false_2 by lia. done.
Qed.

Lemma load_write_then_ask_witness :
  (files (init 8) !! 0 = None /\
   files (load (lit "hello") env_ok (init 8)).2 !! 0 = Some (Some (lit "hello")) /\
   (load (lit "hello") env_ok (init 8)).1 <> Raise AssertionError /\
   exists rest, trace (load (lit "hello") env_ok (init 8)).2 =
     [] ++ Mkstemp 0 :: OsWrite 0 5 :: LoadScript 0 :: rest) /\
  (files (init 8) !! 0 = None /\
   load (lit "hello") env_short_write (init 8)
   = (Raise AssertionError, short_written (init 8) (lit "hello") 3)).
Proof.
  split.
  - apply (load_write_then_ask (lit "hello") env_ok (init 8) (lit "hello") 5);
      reflexivity.
  - apply (load_write_then_ask (lit "hello") env_short_write (init 8)
             (lit "hello") 3); reflexivity.
Defined.

(** C10: code and claim part ways on a short write.  [load] hands the whole
    encoding to one [os.write] and has nothing to write the rest with: when
    the system takes three of the five bytes of the text, the assertion of
    line 185 fails.  [load] raises [AssertionError]; the file holds the
    three bytes, its descriptor is not closed, and the host is not asked to
    load anything. *)
Theorem load_short_write_raises :
  utf8 (lit "hello") = Some (lit "hello") /\
  env_write env_short_write (lit "hello") = Some 3 /\
  load (lit "hello") env_short_write (init 8) =
  (Raise AssertionError,
   mkState ∅ (slots (init 8)) [Some (lit "hel")] [Mkstemp 0; OsWrite 0 3]).
Proof. repeat split; vm_compute; reflexivity. Qed.

(** ** The activation script *)

Lemma js_single_quoted_plain id rest :
  Forall (fun c => plain c = true) id ->
  js_single_quoted (id ++ 39%N :: rest) = Some (id, rest).
Proof.
  induction 1 as [|c id Hc _ IH]; simpl; [done|].
  unfold plain in Hc. apply negb_true_iff in Hc.
  apply orb_false_iff in Hc as [Hc Hlt]. apply orb_false_iff in Hc as [Hq Hb].
  rewrite Hq, Hb, Hlt. by rewrite IH.
Qed.

Lemma press_mid_quote : press_mid = 39%N :: drop 1 press_mid.
Proof. reflexivity. Qed.

Lemma press_tail_quote : press_tail = 39%N :: drop 1 press_tail.
Proof. reflexivity. Qed.

Lemma comparison_operand_eq id : comparison_operand id = id ++ press_tail.
Proof.
  unfold comparison_operand, activation_script.
  rewrite !(app_assoc _ _ (id ++ press_tail)), <-!app_assoc.
  rewrite !app_assoc. rewrite <-(app_assoc _ id press_tail).
  by rewrite drop_app_length.
Qed.

Lemma logged_operand_eq id :
  logged_operand id = id ++ press_mid ++ id ++ press_tail.
Proof.
  unfold logged_operand, activation_script.
  rewrite app_assoc. by rewrite drop_app_length.
Qed.

Lemma js_escape_length e v : js_escape e = Some v -> length v <= 1.
Proof.
  unfold js_escape. repeat case_match; intros [= <-]; simpl; lia.
Qed.

(** A literal is longer than the string it denotes. *)
Lemma js_single_quoted_length n :
  forall src v after, length src <= n ->
    js_single_quoted src = Some (v, after) ->
    length v + length after < length src.
Proof.
  induction n as [|n IH]; intros [|c rest] v after Hn; simpl in *; try done; [lia|].
  case_bool_decide as Hq; [intros [= <- <-]; simpl; lia|].
  case_bool_decide as Hb.
  - destruct rest as [|e rest']; [done|].
    destruct (js_escape e) as [v0|] eqn:He; [|done].
    apply js_escape_length in He.
    set (rest'' := match rest' with
                   | [] => rest'
                   | l :: r => if bool_decide (e = 13%N /\ l = 10%N) then r else rest'
                   end).
    assert (length rest'' <= length rest') as Hr.
    { subst rest''. destruct rest' as [|l r]; [done|]. case_bool_decide; simpl; lia. }
    destruct (js_single_quoted rest'') as [[value after']|] eqn:Hrec; [|done].
    intros [= <- <-]. apply IH in Hrec; [|simpl in Hn; lia].
    rewrite length_app. simpl. lia.
  - destruct (is_line_terminator c); [done|].
    destruct (js_single_quoted rest) as [[value after']|] eqn:Hrec; [|done].
    intros [= <- <-]. apply IH in Hrec; [|lia]. simpl. lia.
Qed.

(** Only a text of plain code points is the literal of itself. *)
Lemma js_single_quoted_exact id rest :
  js_single_quoted (id ++ 39%N :: rest) = Some (id, rest) ->
  Forall (fun c => plain c = true) id.
Proof.
  induction id as [|c id IH]; [done|]. simpl.
  case_bool_decide as Hq; [done|].
  case_bool_decide as Hb.
  - intros H. exfalso.
    assert (length (id ++ 39%N :: rest) = length id + S (length rest)) as Hl
      by (by rewrite length_app).
    destruct (id ++ 39%N :: rest) as [|e rest']; [done|].
    destruct (js_escape e) as [v0|] eqn:He; [|done].
    apply js_escape_length in He.
    set (rest'' := match rest' with
                   | [] => rest'
                   | l :: r => if bool_decide (e = 13%N /\ l = 10%N) then r else rest'
                   end) in H.
    assert (length rest'' <= length rest') as Hr.
    { subst rest''. destruct rest' as [|l r]; [done|]. case_bool_decide; simpl; lia. }
    destruct (js_single_quoted rest'') as [[value after']|] eqn:Hrec; [|done].
    injection H as Hv ->.
    apply (js_single_quoted_length (length rest'')) in Hrec; [|done].
    apply (f_equal length) in Hv. rewrite length_app in Hv. simpl in *. lia.
  - destruct (is_line_terminator c) eqn:Hlt; [done|].
    destruct (js_single_quoted (id ++ 39%N :: rest)) as [[value after']|] eqn:Hrec;
      [|done].
    intros [= -> ->]. constructor; [|by apply IH].
    unfold plain. rewrite Hlt. by rewrite !bool_decide_eq_false_2.
Qed.

(** The comparison is with the identity exactly when the identity is made
    of plain code points. *)
Lemma compares_with_plain id :
  compares_with id = true <-> Forall (fun c => plain c = true) id.
Proof.
  unfold compares_with. rewrite comparison_operand_eq. split.
  - destruct (js_single_quoted (id ++ press_tail)) as [[value after]|] eqn:H; [|done].
    intros [->%bool_decide_eq_true ->%bool_decide_eq_true]%andb_true_iff.
    rewrite press_tail_quote in H at 1. by apply js_single_quoted_exact in H.
  - intros Hp. rewrite press_tail_quote at 1.
    rewrite js_single_quoted_plain by done. by rewrite !bool_decide_eq_true_2.
Qed.

(** C4, as stated, fails: the identity is put between the quotes as it is.
    For the identity a'b the literal in the comparison ends at the quote of
    the identity and denotes a; the script goes on with b and a second
    quote. *)
Lemma quote_in_identity_ends_literal :
  js_single_quoted (comparison_operand (lit "a'b"))
    = Some (lit "a", lit "b" ++ press_tail) /\
  compares_with (lit "a'b") = false.
Proof. split; vm_compute; reflexivity. Qed.

(** C4, amended: for an identity made of code points that stand for
    themselves in a single-quoted literal (no quote, no backslash, no line
    terminator), the script of a key press on a slot that holds it is
    [activation_script], with the identity between single quotes as it is,
    once in the diagnostic line and once as the right operand of the
    comparison; each of the two literals denotes the identity and is
    followed by the text of the template. *)
Theorem activation_script_plain (id : pystr) :
  Forall (fun c => plain c = true) id ->
  js_single_quoted (logged_operand id)
    = Some (id, drop 1 press_mid ++ id ++ press_tail) /\
  js_single_quoted (comparison_operand id) = Some (id, drop 1 press_tail) /\
  compares_with id = true /\
  forall key env st,
    slots st !! key = Some (Some id) ->
    handle_press key true env st = (load (activation_script id) ≫= run) env st.
Proof.
  intros Hp.
  assert (js_single_quoted (comparison_operand id) = Some (id, drop 1 press_tail))
    as Hcmp.
  { rewrite comparison_operand_eq, press_tail_quote at 1.
    by apply js_single_quoted_plain. }
  repeat split.
  - rewrite logged_operand_eq. rewrite press_mid_quote at 1.
    by apply js_single_quoted_plain.
  - done.
  - unfold compares_with. rewrite Hcmp.
    by rewrite !bool_decide_eq_true_2.
  - intros key env st H. by rewrite (handle_press_occupied _ _ id).
Qed.

Lemma activation_script_plain_witness :
  Forall (fun c => plain c = true) (lit "abc-123") /\
  js_single_quoted (logged_operand (lit "abc-123"))
    = Some (lit "abc-123", drop 1 press_mid ++ lit "abc-123" ++ press_tail) /\
  js_single_quoted (comparison_operand (lit "abc-123"))
    = Some (lit "abc-123", drop 1 press_tail) /\
  compares_with (lit "abc-123") = true /\
  forall key env st,
    slots st !! key = Some (Some (lit "abc-123")) ->
    handle_press key true env st
    = (load (activation_script (lit "abc-123")) ≫= run) env st.
Proof.
  assert (Forall (fun c => plain c = true) (lit "abc-123")) as Hp.
  { vm_compute. repeat constructor. }
  split; [exact Hp|]. exact (activation_script_plain (lit "abc-123") Hp).
Defined.

(** * Further results: registry and slots *)

(** The run of a window-added event that finds an icon and a free slot. *)
Lemma WindowAdded_run_icon id cap rc env st icon img k :
  get_icon_path_by_wm_class env rc = Ok (Some icon) ->
  env_native_image env icon = Ok img ->
  first_empty (slots st) 0 = Some k ->
  WindowAdded id cap rc env st =
  let st1 := record (SetKeyImage k (Some img))
               (set_slots (<[k := Some id]> (slots st)) st) in
  if env_device_ok env k (Some img)
  then (Ok tt, set_windows (<[id := mkWindowData id cap rc]> (windows st1)) st1)
  else (Raise ExternalError, st1).
Proof.
  intros Hicon Himg Hk.
  unfold WindowAdded, external, native_image, register, mbind, M_bind.
  rewrite Hicon. simpl. rewrite Himg, assign_run, Hk. simpl.
  unfold assigned. rewrite Hk. unfold set_key_image.
  by destruct (env_device_ok env k (Some img)).
Qed.

(** X1: a window-added event that finds an icon takes the lowest empty
    slot: the slots below it are all taken, the slot holds the identity
    afterwards, no other slot changes, and the one call is the image of that
    key. *)
Theorem WindowAdded_lowest_empty_slot (id cap rc : pystr) (env : Env)
    (st : State) (icon img : N) (k : nat) :
  get_icon_path_by_wm_class env rc = Ok (Some icon) ->
  env_native_image env icon = Ok img ->
  first_empty (slots st) 0 = Some k ->
  slots st !! k = Some None /\
  (forall i, i < k -> exists w, slots st !! i = Some (Some w)) /\
  slots (WindowAdded id cap rc env st).2 !! k = Some (Some id) /\
  (forall j, j <> k ->
     slots (WindowAdded id cap rc env st).2 !! j = slots st !! j) /\
  trace (WindowAdded id cap rc env st).2
    = trace st ++ [SetKeyImage k (Some img)].
Proof.
  intros Hicon Himg Hk.
  pose proof (first_empty_bounds _ _ _ Hk) as Hb.
  pose proof (first_empty_lookup _ _ _ Hk) as Hl. rewrite Nat.sub_0_r in Hl.
  rewrite (WindowAdded_run_icon _ _ _ _ _ icon img k) by done.
  split; [done|]. split.
  { intros i Hi. apply (first_empty_before _ 0 k); [done|lia]. }
  destruct (env_device_ok env k (Some img)); simpl.
  - split; [apply list_lookup_insert_eq; lia|]. split; [|done].
    intros j Hj. by apply list_lookup_insert_ne.
  - split; [apply list_lookup_insert_eq; lia|]. split; [|done].
    intros j Hj. by apply list_lookup_insert_ne.
Qed.

Lemma WindowAdded_lowest_empty_slot_witness :
  slots st_one !! 1 = Some None /\
  (forall i, i < 1 -> exists w, slots st_one !! i = Some (Some w)) /\
  slots (WindowAdded W2 (lit "two") (lit "app") env_ok st_one).2 !! 1
    = Some (Some W2) /\
  (forall j, j <> 1 ->
     slots (WindowAdded W2 (lit "two") (lit "app") env_ok st_one).2 !! j
     = slots st_one !! j) /\
  trace (WindowAdded W2 (lit "two") (lit "app") env_ok st_one).2
    = trace st_one ++ [SetKeyImage 1 (Some 7%N)].
Proof.
  apply (WindowAdded_lowest_empty_slot W2 (lit "two") (lit "app") env_ok
           st_one 7%N 7%N 1); reflexivity.
Defined.

(** X2: when the icon lookup or the preparation of the image raises, the
    window-added event raises the same exception and changes nothing: no
    slot is taken and the window is not registered. *)
Theorem WindowAdded_icon_failure (id cap rc : pystr) (env : Env) (st : State)
    (e : exn) :
  get_icon_path_by_wm_class env rc = Raise e \/
  (exists icon, get_icon_path_by_wm_class env rc = Ok (Some icon) /\
                env_native_image env icon = Raise e) ->
  WindowAdded id cap rc env st = (Raise e, st).
Proof.
  unfold WindowAdded, external, native_image, mbind, M_bind.
  intros [H|(icon & H & Himg)]; rewrite H; simpl; [done|]. by rewrite Himg.
Qed.

Lemma WindowAdded_icon_failure_witness :
  WindowAdded W1 (lit "one") (lit "app") env_image_fails (init 8)
  = (Raise ExternalError, init 8).
Proof.
  apply (WindowAdded_icon_failure W1 (lit "one") (lit "app") env_image_fails
           (init 8) ExternalError).
  right. exists 7%N. split; reflexivity.
Defined.



Lemma WindowAdded_windows_cases id cap rc env st :
  windows (WindowAdded id cap rc env st).2 = windows st \/
  windows (WindowAdded id cap rc env st).2
    = <[id := mkWindowData id cap rc]> (windows st).
Proof.
  unfold WindowAdded, external, native_image, register, mbind, M_bind.
  destruct (get_icon_path_by_wm_class env rc) as [[icon|]|e]; simpl; [|auto..].
  destruct (env_native_image env icon) as [img|e]; simpl; [|auto].
  rewrite assign_run. destruct (first_empty (slots st) 0) as [k|]; simpl; [|auto].
  unfold set_key_image. destruct (env_device_ok env k (Some img)); simpl; auto.
Qed.

Lemma WindowRemoved_windows id env st :
  windows (WindowRemoved id env st).2 = delete id (windows st).
Proof.
  unfold WindowRemoved, unregister, mbind, M_bind.
  destruct (windows st !! id) eqn:H; simpl.
  - by rewrite release_windows.
  - by rewrite delete_id.
Qed.

(** X4: the window-added and window-removed events of an identity leave the
    registry entry of every other identity as it is, whatever their
    outcome. *)
Theorem registry_entries_of_others (id id' cap rc : pystr) (env : Env)
    (st : State) :
  id' <> id ->
  windows (WindowAdded id cap rc env st).2 !! id' = windows st !! id' /\
  windows (WindowRemoved id env st).2 !! id' = windows st !! id'.
Proof.
  intros Hne. split.
  - destruct (WindowAdded_windows_cases id cap rc env st) as [->| ->]; [done|].
    by apply lookup_insert_ne.
  - rewrite WindowRemoved_windows. by apply lookup_delete_ne.
Qed.

Lemma registry_entries_of_others_witness :
  windows (WindowAdded W2 (lit "two") (lit "app") env_ok st_one).2 !! W1
    = windows st_one !! W1 /\
  windows (WindowRemoved W2 env_ok st_one).2 !! W1 = windows st_one !! W1.
Proof.
  apply (registry_entries_of_others W2 W1 (lit "two") (lit "app") env_ok st_one).
  vm_compute. discriminate.
Defined.

Lemma cleared_absent id l : Some id ∉ cleared id l.
Proof.
  unfold cleared. intros (win & Heq & _)%list_elem_of_fmap.
  by case_decide.
Qed.

Lemma released_accepting id dev key todo :
  (forall k, dev k = true) -> released id dev key todo = cleared id todo.
Proof.
  intros Hdev. revert key.
  induction todo as [|win todo IH]; intros key; simpl; [done|].
  case_decide; by rewrite ?Hdev, IH.
Qed.

(** The release loop when the device takes the cleared image of every key
    that holds the identity. *)
Lemma release_from_ok id env key todo st visited :
  slots st = visited ++ todo -> length visited = key ->
  Forall (fun k => env_device_ok env k None = true) (holders id key todo) ->
  release_from id key todo env st =
  (Ok tt,
   mkState (windows st) (visited ++ cleared id todo) (files st)
     (trace st ++ ((fun k => SetKeyImage k None) <$> holders id key todo))).
Proof.
  revert key st visited.
  induction todo as [|win todo IH]; intros key st visited Hs Hl Hdev; simpl.
  - rewrite app_nil_r in Hs. rewrite !app_nil_r, <-Hs. by destruct st.
  - unfold mbind, M_bind. simpl in Hdev. case_decide as Hwin.
    + apply Forall_cons in Hdev as [Hk Hdev].
      unfold set_slot, set_key_image. rewrite Hs.
      case_decide as Hlt; [|rewrite length_app in Hlt; simpl in Hlt; lia].
      rewrite insert_app_r_alt by lia.
      replace (key - length visited) with 0 by lia. simpl. rewrite Hk.
      rewrite (IH (S key) _ (visited ++ [None])); simpl.
      * by rewrite <-!app_assoc.
      * by rewrite <-app_assoc.
      * rewrite length_app. simpl. lia.
      * done.
    + simpl. rewrite (IH (S key) st (visited ++ [win])).
      * by rewrite <-!app_assoc.
      * rewrite Hs. by rewrite <-app_assoc.
      * rewrite length_app. simpl. lia.
      * done.
Qed.

(** The release loop ends without an exception only if the device took the
    cleared image of every key that held the identity. *)
Lemma release_from_result id env key todo st visited :
  slots st = visited ++ todo -> length visited = key ->
  (release_from id key todo env st).1 = Ok tt ->
  Forall (fun k => env_device_ok env k None = true) (holders id key todo).
Proof.
  revert key st visited.
  induction todo as [|win todo IH]; intros key st visited Hs Hl; simpl; [done|].
  unfold mbind, M_bind. case_decide as Hwin.
  - unfold set_slot, set_key_image. rewrite Hs.
    case_decide as Hlt; [|rewrite length_app in Hlt; simpl in Hlt; lia].
    rewrite insert_app_r_alt by lia.
    replace (key - length visited) with 0 by lia. simpl.
    destruct (env_device_ok env key None) eqn:Hk; simpl; [|done].
    intros Hok. constructor; [done|].
    eapply (IH (S key) _ (visited ++ [None])); [..|exact Hok].
    + simpl. by rewrite <-app_assoc.
    + rewrite length_app. simpl. lia.
  - simpl. intros Hok.
    eapply (IH (S key) st (visited ++ [win])); [..|exact Hok].
    + rewrite Hs. by rewrite <-app_assoc.
    + rewrite length_app. simpl. lia.
Qed.

(** X5: a window-removed event that is answered without an exception has
    taken the identity out of the registry and out of every slot that held
    it, has left the other slots as they were, and has sent the device the
    cleared image of exactly the keys that held it, in key order. *)
Theorem WindowRemoved_completed (id : pystr) (env : Env) (st : State) :
  (WindowRemoved id env st).1 = Ok tt ->
  is_Some (windows st !! id) /\
  windows (WindowRemoved id env st).2 = delete id (windows st) /\
  slots (WindowRemoved id env st).2 = cleared id (slots st) /\
  (Some id ∉ slots (WindowRemoved id env st).2) /\
  trace (WindowRemoved id env st).2
    = trace st ++ ((fun k => SetKeyImage k None) <$> holders id 0 (slots st)).
Proof.
  intros Hok.
  assert (is_Some (windows st !! id)) as [w Hw].
  { destruct (windows st !! id) eqn:H; [by eexists|].
    by rewrite WindowRemoved_unknown in Hok. }
  split; [by eexists|].
  revert Hok. unfold WindowRemoved, unregister, mbind, M_bind. rewrite Hw.
  simpl. unfold release. simpl. intros Hok.
  apply (release_from_result id env 0 (slots st) _ []) in Hok; [|done..].
  rewrite (release_from_ok id env 0 (slots st) _ []) by done. simpl.
  repeat split; try done. apply cleared_absent.
Qed.

Lemma WindowRemoved_completed_witness :
  is_Some (windows st_one !! W1) /\
  windows (WindowRemoved W1 env_ok st_one).2 = delete W1 (windows st_one) /\
  slots (WindowRemoved W1 env_ok st_one).2 = cleared W1 (slots st_one) /\
  (Some W1 ∉ slots (WindowRemoved W1 env_ok st_one).2) /\
  trace (WindowRemoved W1 env_ok st_one).2
    = trace st_one ++ ((fun k => SetKeyImage k None) <$> holders W1 0 (slots st_one)).
Proof.
  apply (WindowRemoved_completed W1 env_ok st_one). vm_compute. reflexivity.
Defined.

(** X6: a window-removed event for an identity is never accepted twice in a
    row: whatever the first did, the second raises [KeyError] and changes
    nothing. *)
Theorem WindowRemoved_twice (id : pystr) (env env' : Env) (st : State) :
  WindowRemoved id env' (WindowRemoved id env st).2
  = (Raise KeyError, (WindowRemoved id env st).2).
Proof.
  apply WindowRemoved_unknown. rewrite WindowRemoved_windows.
  apply lookup_delete_eq.
Qed.

(** A slot that holds an identity after an event other than window-added
    held it before. *)
Lemma step_not_added_lookup st ev key id :
  not_added ev.2 = true ->
  slots (step st ev) !! key = Some (Some id) -> slots st !! key = Some (Some id).
Proof.
  destruct ev as [env [i c r|i|msg|k s]]; simpl; intros Hna; [done|..];
    rewrite step_slots; [|done..].
  rewrite WindowRemoved_slots. destruct (windows st !! i); [|done].
  apply released_lookup.
Qed.

(** X7: only window-added events fill slots: after any run of
    window-removed, log and key events a slot that holds an identity held
    that identity before the run; a window that has no slot gets none. *)
Theorem slots_filled_by_added_only (evs : list (Env * event)) (st : State)
    (key : nat) (id : pystr) :
  Forall (fun ev => not_added ev.2 = true) evs ->
  slots (process evs st) !! key = Some (Some id) ->
  slots st !! key = Some (Some id).
Proof.
  intros Hevs. revert st.
  induction Hevs as [|ev evs Hev _ IH]; intros st; [done|].
  unfold process in *. simpl. intros H%IH. by eapply step_not_added_lookup.
Qed.

Lemma slots_filled_by_added_only_witness :
  slots st_one !! 0 = Some (Some W1).
Proof.
  apply (slots_filled_by_added_only
           [(env_ok, EvKey 0 true); (env_ok, EvLog (lit "hello"));
            (env_ok, EvWindowRemoved W2)] st_one 0 W1).
  - repeat constructor.
  - vm_compute. reflexivity.
Defined.

(** The invariant [slots_registered] under one event. *)
Lemma step_slots_registered st ev :
  device_accepts ev.1 -> slots_registered st -> slots_registered (step st ev).
Proof.
  destruct ev as [env [i c r|i|msg|k s]]; simpl; intros Hdev Hinv.
  - intros key id. unfold step. simpl.
    pose proof (WindowAdded_slots i c r env st) as Hs.
    pose proof (WindowAdded_result i c r env st) as Hr.
    destruct (get_icon_path_by_wm_class env r) as [[icon|]|e] eqn:Hicon.
    + destruct (env_native_image env icon) as [img|e] eqn:Himg.
      * assert ((WindowAdded i c r env st).1 = Ok tt) as Hok.
        { rewrite Hr. destruct (first_empty (slots st) 0); [|done].
          by rewrite Hdev. }
        rewrite Hs, (WindowAdded_windows _ _ _ _ _ Hok).
        unfold assigned. destruct (first_empty (slots st) 0) as [k'|].
        -- intros [(-> & [= <-] & _)|[_ H]]%list_lookup_insert_Some.
           ++ rewrite lookup_insert_eq. by eexists.
           ++ apply lookup_insert_is_Some'. right. by eapply Hinv.
        -- intros H. apply lookup_insert_is_Some'. right. by eapply Hinv.
      * rewrite (WindowAdded_icon_failure _ _ _ _ _ e); [by apply Hinv|].
        right. by exists icon.
    + assert ((WindowAdded i c r env st).1 = Ok tt) as Hok by done.
      rewrite Hs, (WindowAdded_windows _ _ _ _ _ Hok).
      intros H. apply lookup_insert_is_Some'. right. by eapply Hinv.
    + rewrite (WindowAdded_icon_failure _ _ _ _ _ e); [by apply Hinv|by left].
  - intros key id. unfold step. simpl.
    rewrite WindowRemoved_slots, WindowRemoved_windows.
    destruct (windows st !! i) eqn:Hi.
    + rewrite released_accepting by (intros k0; apply Hdev). unfold cleared. rewrite list_lookup_fmap.
      destruct (slots st !! key) as [win|] eqn:Hk; simpl; [|done].
      case_decide as Hwin; [done|]. intros [= ->].
      rewrite lookup_delete_ne by congruence. by eapply Hinv.
    + rewrite delete_id by done. apply Hinv.
  - done.
  - intros key id. unfold step. simpl.
    destruct (keeps_handle_press k s env st) as [-> ->]. apply Hinv.
Qed.

(** X8: as long as the device takes every image, every identity in a slot
    is in the registry, after every run of events from the state of
    [__init__]. *)
Theorem slots_registered_along_run (n : nat) (evs : list (Env * event)) :
  Forall (fun ev => device_accepts ev.1) evs ->
  slots_registered (process evs (init n)).
Proof.
  intros Hevs.
  assert (slots_registered (init n)) as Hinit.
  { intros key id H. simpl in H. do 8 (destruct key as [|key]; [done|]). done. }
  revert Hinit. generalize (init n).
  induction Hevs as [|ev evs Hev _ IH]; intros st Hinv; [done|].
  unfold process in *. simpl. apply IH. by apply step_slots_registered.
Qed.

Lemma slots_registered_along_run_witness :
  slots_registered (process evs_reuse (init 8)).
Proof.
  apply (slots_registered_along_run 8 evs_reuse).
  repeat constructor.
Defined.

(** * Further results: key presses *)

(** X9: the slot list has eight slots, so a key event with an index of
    eight or more, as a deck with more keys sends, raises [IndexError] in
    any state the listener can reach, and does nothing else. *)
Theorem handle_press_beyond_slots (n : nat) (evs : list (Env * event))
    (key : nat) (state : bool) (env : Env) :
  8 <= key ->
  handle_press key state env (process evs (init n))
  = (Raise IndexError, process evs (init n)).
Proof.
  intros Hkey. apply handle_press_out_of_range. apply lookup_ge_None_2.
  by rewrite process_length.
Qed.

Lemma handle_press_beyond_slots_witness :
  handle_press 14 true env_ok (process evs_reuse (init 15))
  = (Raise IndexError, process evs_reuse (init 15)).
Proof.
  apply (handle_press_beyond_slots 15 evs_reuse 14 true env_ok). lia.
Defined.

(** * Further results: the script runner *)

Lemma request_answered env c st :
  answered env c -> request c env st = (Ok tt, record c st).
Proof. intros [Hc Hr]. unfold request. by rewrite Hc, Hr. Qed.

Lemma request_refused env c st :
  ~ answered env c -> request c env st = (Raise (refusal env c), record c st).
Proof.
  intros Hn. unfold request, refusal.
  destruct (env_cancelled env c) eqn:Hc; [done|].
  destruct (env_remote_ok env c) eqn:Hr; [|done]. by destruct Hn.
Qed.

(** [load] up to the request, when the write is complete. *)
Lemma load_written script env st b n :
  env_mkstemp_ok env = true -> utf8 script = Some b ->
  env_write env b = Some n -> length b <= n ->
  load script env st =
  (script_id ← call_load_script (length (files st));
   os_close (length (files st)) ;;
   request (Introspect script_id) ;;
   mret (mkLoadedKWinScript script_id (length (files st)))) env
    (short_written st b (length b)).
Proof.
  intros Hmk Hb Hw Hn. unfold load.
  erewrite bind_ok by (by apply mkstemp_run). cbv beta iota.
  erewrite bind_ok by (by apply encode_run).
  erewrite bind_ok by (by apply os_write_run).
  rewrite Nat.min_r by done. unfold assert.
  rewrite bool_decide_eq_true_2 by done. by rewrite bind_ret.
Qed.

Lemma short_written_all st b :
  record (LoadScript (length (files st))) (short_written st b (length b))
  = written st b.
Proof.
  unfold record, short_written, written. simpl.
  by rewrite firstn_all, <-app_assoc.
Qed.

(** X10: a [load] whose every step succeeds: the file is new and holds the
    whole encoding, the calls are mkstemp, write, loadScript, close and
    introspect in this order, and the handle has the script id the host
    answered and the name of the file. *)
Theorem load_succeeds (script : pystr) (env : Env) (st : State) (b : pybytes)
    (n : nat) :
  env_mkstemp_ok env = true -> utf8 script = Some b ->
  env_write env b = Some n -> length b <= n ->
  answered env (LoadScript (length (files st))) ->
  answered env (Introspect (env_script_id env (length (files st)))) ->
  load script env st =
  (Ok (mkLoadedKWinScript (env_script_id env (length (files st)))
         (length (files st))),
   loaded env st b).
Proof.
  intros Hmk Hb Hw Hn Hload Hintro.
  rewrite (load_written script env st b n) by done.
  unfold call_load_script.
  erewrite bind_ok; last first.
  { erewrite bind_ok by (by apply request_answered). reflexivity. }
  unfold answer, os_close. unfold mbind at 1, M_bind at 1. simpl.
  erewrite bind_ok by (by apply request_answered).
  unfold mret, M_ret, loaded, record, short_written. simpl.
  by rewrite firstn_all, <-!app_assoc.
Qed.

Lemma load_succeeds_witness :
  load (lit "hello") env_ok (init 8) =
  (Ok (mkLoadedKWinScript 40 0), loaded env_ok (init 8) (lit "hello")).
Proof.
  apply (load_succeeds (lit "hello") env_ok (init 8) (lit "hello") 5);
    try reflexivity; by split.
Defined.

(** X11: when the request to load the file is not answered (the host sends
    an error, or the task is cancelled while it waits), [load] raises with
    the file written and left in place and its descriptor still open: the
    last call is the request, no close and no remove follow. *)
Theorem load_refused_leaves_file (script : pystr) (env : Env) (st : State)
    (b : pybytes) (n : nat) :
  env_mkstemp_ok env = true -> utf8 script = Some b ->
  env_write env b = Some n -> length b <= n ->
  ~ answered env (LoadScript (length (files st))) ->
  load script env st =
  (Raise (refusal env (LoadScript (length (files st)))), written st b).
Proof.
  intros Hmk Hb Hw Hn Hload.
  rewrite (load_written script env st b n) by done.
  unfold call_load_script.
  erewrite bind_raise; last first.
  { erewrite bind_raise by (by apply request_refused). reflexivity. }
  by rewrite short_written_all.
Qed.

Lemma load_refused_leaves_file_witness :
  load (lit "hello") env_host_refuses (init 8) =
  (Raise DBusError, written (init 8) (lit "hello")).
Proof.
  apply (load_refused_leaves_file (lit "hello") env_host_refuses (init 8)
           (lit "hello") 5); try reflexivity.
  intros [_ H]. discriminate H.
Defined.

(** X12: when the script text has no encoding, or [os.write] raises, [load]
    raises ([UnicodeEncodeError], [OSError]) after [mkstemp] has made the
    file: an empty temp file is left and the host is not asked anything. *)
Theorem load_fails_before_request (script : pystr) (env : Env) (st : State) :
  env_mkstemp_ok env = true ->
  (forall b, utf8 script = Some b -> env_write env b = None) ->
  load script env st =
  (Raise (if utf8 script is Some _ then OSError else UnicodeEncodeError),
   unwritten st).
Proof.
  intros Hmk Hw. unfold load.
  erewrite bind_ok by (by apply mkstemp_run). cbv beta iota.
  destruct (utf8 script) as [b|] eqn:Hb.
  - erewrite bind_ok by (by apply encode_run).
    erewrite bind_raise; [reflexivity|].
    unfold os_write. by rewrite (Hw b eq_refl).
  - erewrite bind_raise; [reflexivity|]. unfold encode. by rewrite Hb.
Qed.

Lemma load_fails_before_request_witness :
  load [0xD800%N] env_ok (init 8) = (Raise UnicodeEncodeError, unwritten (init 8)).
Proof.
  apply (load_fails_before_request [0xD800%N] env_ok (init 8)).
  - reflexivity.
  - intros b H. discriminate H.
Defined.

(** What [load] does to the files: nothing, or one new file. *)
Lemma load_files script env st :
  files (load script env st).2 = files st \/
  exists c, files (load script env st).2 = files st ++ [Some c].
Proof.
  destruct (env_mkstemp_ok env) eqn:Hmk.
  2:{ left. unfold load, mkstemp, mbind, M_bind. by rewrite Hmk. }
  right. destruct (utf8 script) as [b|] eqn:Hb.
  2:{ exists []. rewrite load_fails_before_request; [done..|]. by rewrite Hb. }
  destruct (env_write env b) as [n|] eqn:Hw.
  2:{ exists []. rewrite load_fails_before_request; [done..|].
      intros b' Hb'. congruence. }
  exists (take (n `min` length b) b). unfold load.
  erewrite bind_ok by (by apply mkstemp_run). cbv beta iota.
  erewrite bind_ok by (by apply encode_run).
  erewrite bind_ok by (by apply os_write_run).
  unfold assert, call_load_script, request, answer, os_close, mbind, M_bind.
  case_bool_decide; simpl; [|done].
  destruct (env_cancelled env (LoadScript (length (files st)))),
    (env_remote_ok env (LoadScript (length (files st)))); simpl; try done;
    destruct
      (env_cancelled env (Introspect (env_script_id env (length (files st))))),
      (env_remote_ok env (Introspect (env_script_id env (length (files st)))));
    done.
Qed.

(** X13: [load] never alters or removes a file that exists: it leaves the
    files as they are or adds one new file after them. *)
Theorem load_keeps_files (script : pystr) (env : Env) (st : State) (i : nat) :
  i < length (files st) ->
  files (load script env st).2 !! i = files st !! i /\
  length (files (load script env st).2) <= S (length (files st)).
Proof.
  intros Hi. destruct (load_files script env st) as [->|[c ->]].
  - split; [done|lia].
  - rewrite lookup_app_l by done. rewrite length_app. simpl. split; [done|lia].
Qed.

Lemma load_keeps_files_witness :
  files (load (lit "bye") env_ok (loaded env_ok (init 8) (lit "hello"))).2 !! 0
    = files (loaded env_ok (init 8) (lit "hello")) !! 0 /\
  length (files (load (lit "bye") env_ok
                   (loaded env_ok (init 8) (lit "hello"))).2)
    <= S (length (files (loaded env_ok (init 8) (lit "hello")))).
Proof.
  apply (load_keeps_files (lit "bye") env_ok
           (loaded env_ok (init 8) (lit "hello")) 0).
  simpl. lia.
Defined.

(** [unload] when the host answers. *)
Lemma unload_run script env st c :
  files st !! _filename script = Some (Some c) ->
  answered env (UnloadScript (_filename script)) ->
  unload script env st =
  (Ok tt,
   mkState (windows st) (slots st) (<[_filename script := None]> (files st))
     (trace st ++ [UnloadScript (_filename script); OsRemove (_filename script)])).
Proof.
  intros Hf Hans. unfold unload.
  erewrite bind_ok by (by apply request_answered).
  unfold os_remove. simpl. rewrite Hf. unfold record. simpl.
  by rewrite <-app_assoc.
Qed.

(** X14: [load] followed by [unload] of the handle, every request being
    answered: the file [load] made is removed, the files that were there
    are as they were, and after the calls of [load] come the request to
    unload the file and its removal. *)
Theorem load_then_unload (script : pystr) (env : Env) (st : State)
    (b : pybytes) (n : nat) :
  env_mkstemp_ok env = true -> utf8 script = Some b ->
  env_write env b = Some n -> length b <= n ->
  answered env (LoadScript (length (files st))) ->
  answered env (Introspect (env_script_id env (length (files st)))) ->
  answered env (UnloadScript (length (files st))) ->
  (load script ≫= unload) env st =
  (Ok tt,
   mkState (windows st) (slots st) (files st ++ [None])
     (trace (loaded env st b) ++
        [UnloadScript (length (files st)); OsRemove (length (files st))])).
Proof.
  intros Hmk Hb Hw Hn Hload Hintro Hunload.
  erewrite bind_ok by (by eapply load_succeeds).
  rewrite (unload_run _ _ _ b); simpl; [|apply lookup_fresh|done].
  by rewrite insert_fresh.
Qed.

Lemma load_then_unload_witness :
  (load (lit "hello") ≫= unload) env_ok (init 8) =
  (Ok tt,
   mkState ∅ (slots (init 8)) [None]
     (trace (loaded env_ok (init 8) (lit "hello")) ++ [UnloadScript 0; OsRemove 0])).
Proof.
  apply (load_then_unload (lit "hello") env_ok (init 8) (lit "hello") 5);
    try reflexivity; by split.
Defined.

(** X15: when the request to unload is not answered, [unload] raises and
    does not remove the file: no file changes, and the request is the only
    call. *)
Theorem unload_refused_keeps_file (script : LoadedKWinScript) (env : Env)
    (st : State) :
  ~ answered env (UnloadScript (_filename script)) ->
  unload script env st =
  (Raise (refusal env (UnloadScript (_filename script))),
   record (UnloadScript (_filename script)) st).
Proof.
  intros Hn. unfold unload. by erewrite bind_raise by (by apply request_refused).
Qed.

Lemma unload_refused_keeps_file_witness :
  unload (mkLoadedKWinScript 40 0) env_host_refuses
    (loaded env_ok (init 8) (lit "hello")) =
  (Raise DBusError,
   record (UnloadScript 0) (loaded env_ok (init 8) (lit "hello"))).
Proof.
  apply (unload_refused_keeps_file (mkLoadedKWinScript 40 0) env_host_refuses
           (loaded env_ok (init 8) (lit "hello"))).
  intros [_ H]. discriminate H.
Defined.

(** X16: a handle is unloaded once: after an [unload] that succeeded, a
    second [unload] of the same handle asks the host again and then raises
    [OSError] at [os.remove] (or raises at the request); it never
    succeeds. *)
Theorem unload_twice (script : LoadedKWinScript) (env env' : Env) (st : State) :
  (unload script env st).1 = Ok tt ->
  (unload script env' (unload script env st).2).1 =
    Raise (if decide (answered env' (UnloadScript (_filename script)))
           then OSError
           else refusal env' (UnloadScript (_filename script))).
Proof.
  unfold unload at 1 3.
  unfold mbind at 1 2, M_bind at 1 2.
  destruct (request _ env st) as [[[]|e] st1] eqn:Hreq; [|done].
  unfold os_remove at 1 2.
  destruct (files st1 !! _filename script) as [[c|]|] eqn:Hf; try done.
  simpl. intros _.
  case_decide as Hans.
  - unfold unload. erewrite bind_ok by (by apply request_answered).
    unfold os_remove. simpl.
    rewrite list_lookup_insert_eq; [done|]. by eapply lookup_lt_Some.
  - unfold unload. by erewrite bind_raise by (by apply request_refused).
Qed.

Lemma unload_twice_witness :
  (unload (mkLoadedKWinScript 40 0) env_ok
     (unload (mkLoadedKWinScript 40 0) env_ok
        (loaded env_ok (init 8) (lit "hello"))).2).1 =
  Raise (if decide (answered env_ok (UnloadScript 0)) then OSError
         else refusal env_ok (UnloadScript 0)).
Proof.
  apply (unload_twice (mkLoadedKWinScript 40 0) env_ok env_ok
           (loaded env_ok (init 8) (lit "hello"))).
  reflexivity.
Defined.

(** * Further results: key presses and shutdown *)

(** X17: a key going down on a slot that holds an identity, every step
    succeeding: the script of the identity is written to a new file, loaded
    and run, and the callback ends there: the script is neither stopped nor
    unloaded and its file stays. *)
Theorem handle_press_one_shot (key : nat) (id : pystr) (env : Env) (st : State)
    (b : pybytes) (n : nat) :
  slots st !! key = Some (Some id) ->
  env_mkstemp_ok env = true -> utf8 (activation_script id) = Some b ->
  env_write env b = Some n -> length b <= n ->
  answered env (LoadScript (length (files st))) ->
  answered env (Introspect (env_script_id env (length (files st)))) ->
  answered env (Run (env_script_id env (length (files st)))) ->
  handle_press key true env st =
  (Ok tt, record (Run (env_script_id env (length (files st)))) (loaded env st b)).
Proof.
  intros Hk Hmk Hb Hw Hn Hload Hintro Hrun.
  rewrite (handle_press_occupied _ _ id) by done.
  erewrite bind_ok by (by eapply load_succeeds).
  unfold run. simpl. by apply request_answered.
Qed.

Lemma handle_press_one_shot_witness :
  handle_press 0 true env_ok st_one =
  (Ok tt, record (Run 40) (loaded env_ok st_one (activation_script W1))).
Proof.
  apply (handle_press_one_shot 0 W1 env_ok st_one (activation_script W1) 502);
    try reflexivity; by split.
Defined.

Lemma request_files c env st : files (request c env st).2 = files st.
Proof.
  unfold request. by destruct (env_cancelled env c), (env_remote_ok env c).
Qed.

Lemma handle_press_files key state env st :
  files (handle_press key state env st).2 = files st \/
  exists c, files (handle_press key state env st).2 = files st ++ [Some c].
Proof.
  destruct (slots st !! key) as [[id|]|] eqn:Hk.
  - rewrite (handle_press_occupied _ _ id) by done.
    destruct state; [|by left].
    unfold mbind, M_bind.
    pose proof (load_files (activation_script id) env st) as Hl.
    destruct (load (activation_script id) env st) as [[h|e] st1]; simpl in *;
      [|done].
    unfold run. by rewrite request_files.
  - left. by rewrite handle_press_empty.
  - left. by rewrite handle_press_out_of_range.
Qed.

Lemma WindowAdded_files id cap rc env st :
  files (WindowAdded id cap rc env st).2 = files st.
Proof.
  unfold WindowAdded, external, native_image, register, mbind, M_bind.
  destruct (get_icon_path_by_wm_class env rc) as [[icon|]|e]; simpl; [|done..].
  destruct (env_native_image env icon) as [img|e]; simpl; [|done].
  rewrite assign_run. destruct (first_empty (slots st) 0) as [k|]; simpl; [|done].
  unfold set_key_image. by destruct (env_device_ok env k (Some img)).
Qed.

Lemma WindowRemoved_files id env st :
  files (WindowRemoved id env st).2 = files st.
Proof.
  unfold WindowRemoved, unregister, mbind, M_bind.
  destruct (windows st !! id); simpl; [|done]. unfold release.
  by destruct (release_from_run id env 0
                 (slots (set_windows (delete id (windows st)) st))
                 (set_windows (delete id (windows st)) st) [])
    as (_ & _ & ->).
Qed.

Lemma step_files st ev :
  files (step st ev) = files st \/
  exists c, files (step st ev) = files st ++ [Some c].
Proof.
  destruct ev as [env [i c r|i|msg|k s]]; unfold step; simpl.
  - left. apply WindowAdded_files.
  - left. apply WindowRemoved_files.
  - by left.
  - apply handle_press_files.
Qed.

(** X18: the listener never removes or rewrites a temp file: after any run
    of events the files that were there are there unchanged, first in the
    store, followed by at most one new file for each event. *)
Theorem files_only_grow (evs : list (Env * event)) (st : State) :
  exists new,
    files (process evs st) = files st ++ (Some <$> new) /\
    length new <= length evs.
Proof.
  revert st. induction evs as [|ev evs IH]; intros st.
  - exists []. by rewrite app_nil_r.
  - unfold process in *. simpl. destruct (IH (step st ev)) as (new & -> & Hn).
    destruct (step_files st ev) as [->|[c ->]].
    + exists new. split; [done|lia].
    + exists (c :: new). rewrite <-app_assoc. split; [done|simpl; lia].
Qed.

(** The calls of [main] once the observer script is loaded. *)
Lemma main_after_load env st h st1 :
  load SCRIPT env st = (Ok h, st1) ->
  trace (main env st).2 = trace st1 ++ calls_after_load env h /\
  files (main env st).2 = files st1.
Proof.
  intros Hload. unfold main. erewrite bind_ok by done.
  unfold try_except, run, stop, request, calls_after_load, mbind, M_bind.
  destruct (env_cancelled env (Run (_script_id h))) eqn:Hc1; simpl.
  { destruct (env_cancelled env (Stop (_script_id h))),
      (env_remote_ok env (Stop (_script_id h))); simpl;
      by rewrite <-app_assoc. }
  destruct (env_remote_ok env (Run (_script_id h))) eqn:Hr1; simpl; [|done].
  destruct (env_cancelled env WaitForDisconnect) eqn:Hc2; simpl.
  { destruct (env_cancelled env (Stop (_script_id h))),
      (env_remote_ok env (Stop (_script_id h))); simpl;
      by rewrite <-!app_assoc. }
  destruct (env_remote_ok env WaitForDisconnect); simpl; by rewrite <-app_assoc.
Qed.

(** X19: once the observer script is loaded, [main] asks to run it, waits
    for the disconnect if that is answered, and asks to stop it exactly when
    the task is cancelled while it awaits one of the two: after a disconnect
    or an error of the host no stop is sent.  The file of the script is left
    in every case. *)
Theorem main_stops_on_cancellation (env : Env) (st st1 : State)
    (h : LoadedKWinScript) :
  load SCRIPT env st = (Ok h, st1) ->
  trace (main env st).2 = trace st1 ++ calls_after_load env h /\
  files (main env st).2 = files st1 /\
  (Stop (_script_id h) ∈ calls_after_load env h <->
   env_cancelled env (Run (_script_id h)) = true \/
   (env_remote_ok env (Run (_script_id h)) = true /\
    env_cancelled env WaitForDisconnect = true)).
Proof.
  intros Hload. destruct (main_after_load env st h st1 Hload) as [Ht Hf].
  split; [done|]. split; [done|]. unfold calls_after_load.
  destruct (env_cancelled env (Run (_script_id h))) eqn:Hc1.
  { split; [auto|]. intros _. apply list_elem_of_In. simpl. auto. }
  destruct (env_remote_ok env (Run (_script_id h))) eqn:Hr1.
  - destruct (env_cancelled env WaitForDisconnect) eqn:Hc2.
    + split; [auto|]. intros _. apply list_elem_of_In. simpl. auto.
    + split; [|intros [?|[_ ?]]; done].
      intros H%list_elem_of_In. simpl in H. by destruct H as [?|[?|[]]].
  - split; [|intros [?|[? _]]; done].
    intros H%list_elem_of_In. simpl in H. by destruct H as [?|[]].
Qed.

Lemma main_stops_on_cancellation_witness :
  trace (main env_terminated (init 8)).2
    = trace (loaded env_terminated (init 8) SCRIPT)
      ++ calls_after_load env_terminated (mkLoadedKWinScript 40 0) /\
  files (main env_terminated (init 8)).2
    = files (loaded env_terminated (init 8) SCRIPT) /\
  (Stop 40 ∈ calls_after_load env_terminated (mkLoadedKWinScript 40 0) <->
   env_cancelled env_terminated (Run 40) = true \/
   (env_remote_ok env_terminated (Run 40) = true /\
    env_cancelled env_terminated WaitForDisconnect = true)).
Proof.
  apply (main_stops_on_cancellation env_terminated (init 8)
           (loaded env_terminated (init 8) SCRIPT) (mkLoadedKWinScript 40 0)).
  vm_compute. reflexivity.
Defined.

(** * Further results: icon lookup *)

(** X20: the one file [desktop_file_from_wm_class] looks for is the
    class with .desktop appended, under /usr/share/applications/ unless
    the class starts with a slash, which [os.path.join] takes as an absolute
    path.  If the file is not there, [get_icon_path_by_wm_class] answers
    [None] whatever the icon theme holds. *)
Theorem desktop_file_consulted (env : Env) (wm_class : pystr) :
  desktop_file_from_wm_class env wm_class =
    (if env_path_exists env (desktop_path wm_class)
     then env_desktop_icon env (desktop_path wm_class) else Ok None) /\
  (env_path_exists env (desktop_path wm_class) = false ->
   get_icon_path_by_wm_class env wm_class = Ok None).
Proof.
  assert (desktop_file_from_wm_class env wm_class =
    (if env_path_exists env (desktop_path wm_class)
     then env_desktop_icon env (desktop_path wm_class) else Ok None)) as H.
  { unfold desktop_file_from_wm_class, desktop_locations, desktop_path.
    simpl. by destruct wm_class as [|c w]; [|destruct (decide (c = 47%N)) as [->|];
      [|repeat (destruct c as [|c]; try done)]]. }
  split; [done|]. intros Hno.
  unfold get_icon_path_by_wm_class. by rewrite H, Hno.
Qed.

Lemma desktop_file_consulted_witness :
  desktop_file_from_wm_class env_no_icon (lit "/tmp/x") =
    (if env_path_exists env_no_icon (desktop_path (lit "/tmp/x"))
     then env_desktop_icon env_no_icon (desktop_path (lit "/tmp/x"))
     else Ok None) /\
  desktop_path (lit "/tmp/x") = lit "/tmp/x.desktop" /\
  desktop_path (lit "firefox") = lit "/usr/share/applications/firefox.desktop" /\
  get_icon_path_by_wm_class env_no_icon (lit "/tmp/x") = Ok None.
Proof.
  split; [apply (desktop_file_consulted env_no_icon (lit "/tmp/x"))|].
  split; [reflexivity|]. split; [reflexivity|].
  apply (desktop_file_consulted env_no_icon (lit "/tmp/x")). reflexivity.
Defined.

Lemma lookup_icons_none env env' resolutions :
  (forall r, env_lookup_icon env None r = env_lookup_icon env' None r) ->
  lookup_icons env None resolutions = lookup_icons env' None resolutions.
Proof.
  intros Hn. induction resolutions as [|r rs IH]; simpl; [done|].
  unfold mbind, res_bind. rewrite Hn.
  destruct (env_lookup_icon env' None r) as [[p|]|e]; done.
Qed.

Lemma lookup_icons_cons env icon r rs :
  lookup_icons env icon (r :: rs) =
  match env_lookup_icon env icon r with
  | Ok (Some p) => Ok (Some p)
  | Ok None => lookup_icons env None rs
  | Raise e => Raise e
  end.
Proof. simpl. unfold mbind, res_bind. by destruct (env_lookup_icon env icon r). Qed.

(** X21: the name of the icon is looked up at the first resolution, 16,
    only: the loop keeps its last answer in [icon], so every later lookup
    is given [None] in place of the name.  Two environments that differ
    only in what the theme holds for names at other resolutions give the
    same result. *)
Theorem icon_name_looked_up_once (env env' : Env) (wm_class : pystr) :
  (forall p, env_path_exists env p = env_path_exists env' p) ->
  (forall p, env_desktop_icon env p = env_desktop_icon env' p) ->
  (forall name,
     env_lookup_icon env (Some name) 16 = env_lookup_icon env' (Some name) 16) ->
  (forall r, env_lookup_icon env None r = env_lookup_icon env' None r) ->
  get_icon_path_by_wm_class env wm_class
  = get_icon_path_by_wm_class env' wm_class.
Proof.
  intros Hp Hd Hname Hnone. unfold get_icon_path_by_wm_class.
  destruct (desktop_file_consulted env wm_class) as [-> _].
  destruct (desktop_file_consulted env' wm_class) as [-> _].
  rewrite Hp, Hd. unfold mbind, res_bind.
  destruct (env_path_exists env' (desktop_path wm_class)); [|done].
  destruct (env_desktop_icon env' (desktop_path wm_class)) as [[name|]|e];
    [|done..].
  rewrite !(lookup_icons_cons _ (Some name)), Hname.
  destruct (env_lookup_icon env' (Some name) 16) as [[p|]|e]; [done| |done].
  by apply lookup_icons_none.
Qed.

Lemma icon_name_looked_up_once_witness :
  get_icon_path_by_wm_class env_ok (lit "firefox")
  = get_icon_path_by_wm_class env_first_resolution (lit "firefox").
Proof.
  apply (icon_name_looked_up_once env_ok env_first_resolution (lit "firefox"));
    reflexivity.
Defined.

(** * Further results: the encoding of scripts *)

Lemma encode_code_point_scalar c :
  is_Some (encode_code_point c) <-> scalar c.
Proof.
  unfold encode_code_point, scalar.
  destruct (N.ltb_spec c 0x80); [split; [lia|by eexists]|].
  destruct (N.ltb_spec c 0x800); [split; [lia|by eexists]|].
  destruct (N.ltb_spec c 0x10000).
  - destruct (N.leb_spec 0xD800 c), (N.ltb_spec c 0xE000); simpl;
      (split; [intros [? ?]; try done; lia|intros [? ?]; try (by eexists); lia]).
  - destruct (N.ltb_spec c 0x110000);
      (split; [intros [? ?]; try done; lia|intros [? ?]; try (by eexists); lia]).
Qed.

Lemma encode_code_point_length c b :
  encode_code_point c = Some b -> 1 <= length b <= 4.
Proof.
  unfold encode_code_point. repeat case_match; intros [= <-]; simpl; lia.
Qed.

Lemma utf8_app s1 s2 :
  utf8 (s1 ++ s2) =
  match utf8 s1, utf8 s2 with
  | Some b1, Some b2 => Some (b1 ++ b2)
  | _, _ => None
  end.
Proof.
  induction s1 as [|c s1 IH]; simpl.
  - by destruct (utf8 s2).
  - rewrite IH. destruct (encode_code_point c) as [b|]; [|done].
    destruct (utf8 s1), (utf8 s2); try done. by rewrite app_assoc.
Qed.

(** X22: [str.encode] as [load] uses it: a text has an encoding exactly
    when it has no surrogate; the encoding is made of bytes, one to four
    for each code point. *)
Theorem utf8_of_scalars (s : pystr) :
  (is_Some (utf8 s) <-> Forall scalar s) /\
  forall b, utf8 s = Some b ->
    Forall (fun x => (x < 256)%N) b /\ length s <= length b <= 4 * length s.
Proof.
  split.
  - induction s as [|c s IH]; simpl; [split; [done|by eexists]|].
    rewrite Forall_cons, <-IH, <-encode_code_point_scalar.
    destruct (encode_code_point c), (utf8 s); split;
      try (intros [? ?]; done); try (intros [[? ?] [? ?]]; done);
      by (intros; split; eexists) || by (intros; eexists).
  - intros b Hb. split; [by eapply utf8_bytes|].
    revert b Hb. induction s as [|c s IH]; simpl; intros b.
    + intros [= <-]. simpl. lia.
    + destruct (encode_code_point c) as [b1|] eqn:Hc; [|done].
      destruct (utf8 s) as [b2|]; [|done]. intros [= <-].
      apply encode_code_point_length in Hc. specialize (IH b2 eq_refl).
      rewrite length_app. lia.
Qed.

Lemma utf8_of_scalars_witness :
  (is_Some (utf8 [0x20AC%N; 0x41%N]) <-> Forall scalar [0x20AC%N; 0x41%N]) /\
  (Forall (fun x => (x < 256)%N) [0xE2; 0x82; 0xAC; 0x41]%N /\
   length [0x20AC%N; 0x41%N] <= length [0xE2; 0x82; 0xAC; 0x41]%N
     <= 4 * length [0x20AC%N; 0x41%N]).
Proof.
  split.
  - apply (utf8_of_scalars [0x20AC%N; 0x41%N]).
  - apply (utf8_of_scalars [0x20AC%N; 0x41%N]). reflexivity.
Defined.

Lemma templates_ascii :
  Forall (fun c => (c < 0x80)%N) log /\
  Forall (fun c => (c < 0x80)%N) press_head /\
  Forall (fun c => (c < 0x80)%N) press_mid /\
  Forall (fun c => (c < 0x80)%N) press_tail.
Proof.
  repeat split; apply (bool_decide_unpack _); vm_compute; exact I.
Qed.

(** X23: the script of a key press always has an encoding when the
    identity has no surrogate, so [load] does not raise
    [UnicodeEncodeError] for it; for an ASCII identity the encoding is the
    script text itself, one byte for each character. *)
Theorem activation_script_encoding (id : pystr) :
  (Forall scalar id -> is_Some (utf8 (activation_script id))) /\
  (Forall (fun c => (c < 0x80)%N) id ->
   utf8 (activation_script id) = Some (activation_script id)).
Proof.
  destruct templates_ascii as (H0 & H1 & H2 & H3). split.
  - intros Hid. apply utf8_of_scalars. unfold activation_script.
    rewrite !Forall_app.
    assert (forall l, Forall (fun c => (c < 0x80)%N) l -> Forall scalar l) as Ha.
    { intros l Hl. eapply Forall_impl; [exact Hl|].
      intros c Hc. unfold scalar. simpl in Hc. lia. }
    repeat split; auto.
  - intros Hid. apply utf8_ascii. unfold activation_script.
    rewrite !Forall_app. repeat split; auto.
Qed.

Lemma activation_script_encoding_witness :
  is_Some (utf8 (activation_script [0x20AC%N])) /\
  utf8 (activation_script W1) = Some (activation_script W1).
Proof.
  split.
  - apply (activation_script_encoding [0x20AC%N]).
    repeat constructor; unfold scalar; lia.
  - apply (activation_script_encoding W1).
    repeat constructor; lia.
Defined.

(** * Further results: what is left alone, what is not rolled back *)

Lemma keeps_os_remove filename : keeps_listener (os_remove filename).
Proof.
  intros env st. unfold os_remove. by destruct (files st !! filename) as [[?|]|].
Qed.

(** X24: the script runner and the key callback never touch the registry
    or the slots: after [load], [unload], a key event or [main], whatever
    the outcome, both are as they were. *)
Theorem runner_keeps_listener (script : pystr) (h : LoadedKWinScript)
    (key : nat) (state : bool) :
  keeps_listener (load script) /\ keeps_listener (unload h) /\
  keeps_listener (handle_press key state) /\ keeps_listener main.
Proof.
  split; [apply keeps_load|]. split.
  { unfold unload. apply keeps_bind; [apply keeps_request|].
    intros _. apply keeps_os_remove. }
  split; [apply keeps_handle_press|apply keeps_main].
Qed.

(** The release loop when the device refuses the cleared image of the first
    key that holds the identity. *)
Lemma release_from_refused id env key todo st visited k rest :
  slots st = visited ++ todo -> length visited = key ->
  holders id key todo = k :: rest ->
  env_device_ok env k None = false ->
  release_from id key todo env st =
  (Raise ExternalError,
   mkState (windows st) (<[k := None]> (slots st)) (files st)
     (trace st ++ [SetKeyImage k None])).
Proof.
  revert key st visited.
  induction todo as [|win todo IH]; intros key st visited Hs Hl Hh Hdev;
    simpl in *; [done|].
  unfold mbind, M_bind. case_decide as Hwin.
  - injection Hh as <- _.
    unfold set_slot, set_key_image.
    case_decide as Hlt;
      [|rewrite Hs, length_app in Hlt; simpl in Hlt; lia].
    simpl. by rewrite Hdev.
  - simpl. apply (IH (S key) st (visited ++ [win])); [| |done..].
    + rewrite Hs. by rewrite <-app_assoc.
    + rewrite length_app. simpl. lia.
Qed.

(** X25: a window-removed event is not rolled back when the device
    refuses the cleared image of the first key that held the identity: the
    event raises with the window already out of the registry and that slot
    already empty; the keys after it are not visited. *)
Theorem WindowRemoved_device_refusal (id : pystr) (env : Env) (st : State)
    (k : nat) (rest : list nat) :
  is_Some (windows st !! id) ->
  holders id 0 (slots st) = k :: rest ->
  env_device_ok env k None = false ->
  WindowRemoved id env st =
  (Raise ExternalError,
   mkState (delete id (windows st)) (<[k := None]> (slots st)) (files st)
     (trace st ++ [SetKeyImage k None])).
Proof.
  intros [w Hw] Hh Hdev.
  unfold WindowRemoved, unregister, mbind, M_bind. rewrite Hw.
  unfold release. simpl.
  by rewrite (release_from_refused id env 0 (slots st) _ [] k rest).
Qed.

Lemma WindowRemoved_device_refusal_witness :
  WindowRemoved W1 env_device_refuses st_one =
  (Raise ExternalError,
   mkState (delete W1 (windows st_one)) (<[0 := None]> (slots st_one))
     (files st_one) (trace st_one ++ [SetKeyImage 0 None])).
Proof.
  apply (WindowRemoved_device_refusal W1 env_device_refuses st_one 0 []).
  - vm_compute. by eexists.
  - vm_compute. reflexivity.
  - reflexivity.
Defined.

(** * Further results: the calls of the handlers *)

Lemma issues_slot P key : issues P (slot key).
Proof.
  intros env st. exists []. rewrite app_nil_r. unfold slot.
  by destruct (slots st !! key).
Qed.

Lemma issues_add_str P s win : issues P (add_str s win).
Proof. destruct win; [apply issues_ret|apply issues_raise]. Qed.

Lemma issues_load_or_run script : issues is_load_or_run (load script).
Proof.
  unfold load, call_load_script.
  apply issues_bind; [by apply issues_mkstemp|intros [fd filename]].
  apply issues_bind; [apply issues_encode|intros b].
  apply issues_bind; [by apply issues_os_write|intros n].
  apply issues_bind; [apply issues_assert|intros _].
  apply issues_bind.
  { apply issues_bind; [by apply issues_request|].
    intros _; apply issues_answer. }
  intros script_id.
  apply issues_bind; [by apply issues_os_close|intros _].
  apply issues_bind; [by apply issues_request|intros _; apply issues_ret].
Qed.

(** X26: whatever its outcome, a key event issues only calls of [load]
    and [run]: it never stops or unloads a script, never removes a file and
    never writes to the device. *)
Theorem handle_press_calls (key : nat) (state : bool) :
  issues is_load_or_run (handle_press key state).
Proof.
  unfold handle_press.
  apply issues_bind; [apply issues_slot|intros win1].
  apply issues_bind; [apply issues_add_str|intros s1].
  apply issues_bind; [apply issues_slot|intros win2].
  apply issues_bind; [apply issues_add_str|intros s2].
  destruct state; [|apply issues_ret].
  apply issues_bind; [apply issues_load_or_run|intros h].
  by apply issues_request.
Qed.

Lemma issues_set_slot P key v : issues P (set_slot key v).
Proof.
  intros env st. exists []. rewrite app_nil_r. unfold set_slot.
  by case_decide.
Qed.

Lemma issues_set_key_image P key image :
  P (SetKeyImage key image) -> issues P (set_key_image key image).
Proof.
  intros HP env st. exists [SetKeyImage key image]. unfold set_key_image.
  destruct (env_device_ok env key image); simpl; by repeat constructor.
Qed.

Lemma issues_assign P id : issues P (assign id).
Proof.
  intros env st. exists []. rewrite app_nil_r. by rewrite assign_run.
Qed.

Lemma issues_release_from id key todo :
  issues is_device_call (release_from id key todo).
Proof.
  revert key. induction todo as [|win todo IH]; intros key; simpl.
  - apply issues_ret.
  - apply issues_bind; [|intros _; apply IH].
    case_decide; [|apply issues_ret].
    apply issues_bind; [apply issues_set_slot|intros _].
    by apply issues_set_key_image.
Qed.

Lemma issues_external {A} P (f : Env -> res A) : issues P (external f).
Proof. intros env st. exists []. by rewrite app_nil_r. Qed.

Lemma issues_register P id cap rc : issues P (register id cap rc).
Proof. intros env st. exists []. by rewrite app_nil_r. Qed.

Lemma issues_unregister P id : issues P (unregister id).
Proof.
  intros env st. exists []. rewrite app_nil_r. unfold unregister.
  by destruct (windows st !! id).
Qed.

Lemma issues_native_image P icon : issues P (native_image icon).
Proof. intros env st. exists []. by rewrite app_nil_r. Qed.

(** X27: of the calls recorded in [trace] (the device, the temp files of
    the runner, the requests to the host) the window-added and
    window-removed events issue only those of the device, whatever their
    outcome: they send no request to the host and make, write, close or
    remove no temp file, and the temp files are as they were.  (The desktop
    file and the icon file that a window-added event reads are no temp
    files and their reading is not a recorded call.) *)
Theorem window_events_call_device_only (id cap rc : pystr) :
  issues is_device_call (WindowAdded id cap rc) /\
  issues is_device_call (WindowRemoved id) /\
  forall env st,
    files (WindowAdded id cap rc env st).2 = files st /\
    files (WindowRemoved id env st).2 = files st.
Proof.
  split; [|split].
  - unfold WindowAdded.
    apply issues_bind; [apply issues_external|intros icon].
    apply issues_bind; [|intros ?; apply issues_register].
    destruct icon as [icon|]; [|apply issues_ret].
    apply issues_bind; [apply issues_native_image|intros img].
    apply issues_bind; [apply issues_assign|intros [k|]]; [|apply issues_ret].
    by apply issues_set_key_image.
  - unfold WindowRemoved.
    apply issues_bind; [apply issues_unregister|].
    intros ? env st. unfold release.
    destruct (issues_release_from id 0 (slots st) env st) as (new & H & HP).
    by exists new.
  - intros env st. split; [apply WindowAdded_files|apply WindowRemoved_files].
Qed.

(** * Scenarios *)

(** Eight keys and nine windows: the ninth gets no slot and is registered. *)
Example ninth_window_registered :
  let w9 := lit "W9" in
  let st := step st_full (env_ok, EvWindowAdded w9 (lit "nine") (lit "app")) in
  slots st = slots st_full /\ (Some w9 ∉ slots st) /\
  windows st !! w9 = Some (mkWindowData w9 (lit "nine") (lit "app")).
Proof.
  split; [|split].
  - vm_compute. reflexivity.
  - apply (bool_decide_unpack _). vm_compute. exact I.
  - vm_compute. reflexivity.
Qed.

(** W1 takes slot 0, leaves it, and W2 takes slot 0. *)
Example first_slot_reused :
  let st1 := step (init 8) (env_ok, EvWindowAdded W1 (lit "one") (lit "app")) in
  let st2 := step st1 (env_ok, EvWindowRemoved W1) in
  let st3 := step st2 (env_ok, EvWindowAdded W2 (lit "two") (lit "app")) in
  slots st1 !! 0 = Some (Some W1) /\
  slots st2 !! 0 = Some None /\ windows st2 !! W1 = None /\
  slots st3 !! 0 = Some (Some W2).
Proof. repeat split; vm_compute; reflexivity. Qed.

(** A key going down on the slot of W1: the script of W1 is written to a
    new file, loaded and run; nothing is stopped or unloaded. *)
Example press_on_occupied_slot :
  let st1 := step (init 8) (env_ok, EvWindowAdded W1 (lit "one") (lit "app")) in
  let st2 := step st1 (env_ok, EvKey 0 true) in
  trace st2 = trace st1 ++
    [Mkstemp 0; OsWrite 0 (length (activation_script W1)); LoadScript 0;
     OsClose 0; Introspect 40; Run 40] /\
  files st2 = [utf8 (activation_script W1)].
Proof. split; vm_compute; reflexivity. Qed.
